(* ===== verification/_CoqProject ===== *)
-Q . S2P
Prelude.v
Styles.v
Html.v
Fmt.v
ClassNames.v
Yew.v
Scheduler.v
Browser.v
FormPage.v
FormPageBrowser.v
Navbar.v
CarouselControls.v
Page.v
ManyNavbars.v
ManyCarousels.v
