(* ===== verification/Prelude.v ===== *)
(** * A verification development of yewstyle-page

    The repository is a demo site for the [yew_styles] component library,
    written in Rust on the Yew 0.16 web framework.  Three source files are
    in scope:

    - [src/crate/src/page/form_pages.rs]: the [FormPage] demo component.
      Its state is a vector of 50 input strings ([value]) and the list of
      values picked in a multiple select ([multiple_values]); its message
      type [Msg] has the variants [Input], [Select] and [MultipleSelect];
      its view renders three text inputs (slots 0, 1, 2), a single select
      (slot 3) and a multiple select, whose change callback walks the
      option collection of the DOM select element.
    - [src/crate/yew_styles/src/components/navbar/navbar.rs]: the
      [Navbar] component.  Its state is the converted configuration
      ([NavbarProps]) and a menu-visibility flag; [TroggleMenu] flips the
      flag; [mounted] and [change] call [NavbarModel.init], which writes
      the position of the bar into the page-wide style side table through
      [utils::create_style].
    - [src/crate/yew_styles/src/components/carousel/carousel_controls.rs]:
      the [CarouselControls] component, which keeps its configuration,
      forwards clicks on its two arrows to the parent's [prev_signal] and
      [next_signal] callbacks, and re-renders on [change] only when the
      new configuration differs from the old one.

    The components never call each other: a parent hands each one a
    configuration ([Props]), the component hands its parent events through
    callbacks, and the Yew runtime drives each component through the
    [Component] trait ([create], [mounted], [update], [change], [view]).

    ** Files, in dependency order

    - [Prelude] (this file): the Rust effects the three files use, as a
      small error monad [outcome] ([Ret] or [Panic], with the notation
      [x <- m ;; k] in [rust_scope]); vector indexing [v[i]] and
      assignment [v[i] = x] with Rust's out-of-range panic ([vec_index],
      [vec_set]); [Option::unwrap] and [unreachable!]; the shared lemmas
      about them and the hint databases [rust] and [rust_rw].
    - [Styles]: the [Palette], [Style] and [Size] enums of
      [yew_styles::styles] and their class-name functions, and the
      page-wide style side table written by [utils::create_style].  Those
      files are not among the sources: they are modelled from the spec
      (section 4.3) and marked so in the manifest.
    - [Fmt]: Rust's [Debug] formatting of strings and of [Vec<String>] in
      the [{:#?}] layout, which the form page prints, with a reader for
      that text and the round trip between them.
    - [ClassNames]: the reader of the space-separated class strings the
      views build with [format!] ([split_word], [read_words]), the
      variant enums as [Finite] types with injective tokens, and the
      round trip of words and tokens ([read_words_join], [of_token_inv]).
    - [Html]: the part of Yew's virtual DOM and of [web_sys] the views and
      callbacks use: element and component nodes with attributes and
      callback properties, the three event payloads ([InputData],
      [ChangeData], [MouseEvent]), DOM select and option elements, and the
      dispatch of a platform event to a rendered listener.
    - [Yew]: the [Component] trait as a type class over a state-and-panic
      monad on the page-wide [World] (style table, callbacks emitted to
      parents), the runtime that mounts a component and folds events and
      new configurations into it, its reachability relation, and the
      runtime's rendering-consistency theorem, proved once against the
      class and its [RenderLaws] (spec section 4.1).
    - [Scheduler]: the runtime's message queue ([send]) and the loop that
      drains it ([run], with fuel), its reference [dispatch_all], and runs
      of successive browser events ([handle_events]) (spec sections 4.1
      and 5).
    - [Browser]: what the browser delivers to a rendered page (a
      select's change event carries that select, built from the option
      tags of the listener's node, disabled options unselected), runs of
      the runtime over a given set of admissible events ([reachable_in]),
      of which [Yew.reachable] is one instance, and a nested induction
      principle for trees.
    - [FormPage], [Navbar], [CarouselControls]: one file per component,
      each a Module with the source's state record, message type and
      operations, its [Component] instance, and its theorems.
    - [FormPageBrowser]: invariants of the form page's reachable states,
      proved once over any admissible events ([form_page_invariant]).
    - [Page]: two mounted components sharing one [World], with
      interleaved runs of new configurations and events ([mount_page],
      [page_op], [run_page]); the classes [StylesOnly] and [EmitsOnly]
      state what each may do to the world, and [Navbar] and
      [CarouselControls] discharge them.
    - [Page] also holds pages of any number of components of one kind
      ([mount_many], [many_op], [run_many]).
    - [ManyNavbars]: pages of navbars, with the reference [shown_fixed]
      of the position the page ends with and each navbar's own state.
    - [ManyCarousels]: pages of carousel controls whose parents re-render
      them with fresh callbacks, with the reference [expected_emits] of
      the events the parents receive.

    ** What the theorems show (claim ids as in the manifest)

    - FormPage: [update] writes exactly the addressed slot (C1), panics
      past the end of the vector (C7) and keeps the number of slots (C10);
      every state the runtime reaches from [create], through browser
      events, new configurations and other components' writes to the
      world, keeps 50 slots, shows the view of its state and handles every
      event the browser can deliver without panicking (C2); the loop of
      the multiple-select callback equals the reference "values of the
      selected options, in order" (C3) and panics on a non-option item
      (C14); both select callbacks treat other payloads as unreachable
      (C15); the rendered page (C12), the panic of [view] on a short
      vector (C13), and that the page's text determines the slots and values it shows (C19), through the
      round trip of Rust's [{:#?}] formatting proved in [Fmt].
    - Navbar: [set_fixed] writes [position] and the offset of the fixed
      side and nothing else (C6); no sequence of [set_fixed] ever clears
      an offset (C9); [change] initialises the style table from the
      configuration it replaces, so the table lags one configuration
      behind (C4) and the navbar does not implement the reconfiguration
      contract (C16); toggling twice is the identity (C8); the rendered
      bars (C17) and the menu button (C18).
    - CarouselControls: [change] refines the reconfiguration contract of
      spec 4.1 (C5); every reachable state shows the view of its
      configuration (C11), an instance of the runtime's
      [render_consistent], proved once in [Yew] against [RenderLaws];
      any sequence of clicks reaches the parent's callbacks one event per
      click, in click order (C22); the [id] a parent passes never reaches
      the page (C29).
    - Sequences and liveness: the scheduler drains every queue of
      in-range FormPage messages with fuel one more than its length,
      ending in the reference fold where each slot holds its last write
      (C20); in every reachable FormPage state each of the five listeners
      accepts an event and the runtime takes a step (C21).
    - Pages: two navbars on one page share the ["navbar"] entries, so the
      one mounted last decides the position (C23); on a page of a navbar
      and carousel controls, every interleaving of their operations ends
      as each one's operations alone would leave its part of the page and
      of the world (C24), proved once for any [StylesOnly] and [EmitsOnly]
      pair ([non_interference]); on a page of any number of navbars, the
      position after any interleaving of new configurations and clicks is
      the reference [shown_fixed], so a page whose navbars all ask for the
      top can end static (C30); and each navbar's state is what its own
      operations make it, its menu open exactly after an odd number of its
      own clicks (C31); on a page of carousel controls whose parents
      re-render them with fresh callbacks, every click reaches the
      callback of the configuration current when clicked, in click order
      (C32).
    - Form page invariants: slots 4 to 49, which the view never
      addresses, stay blank in every reachable state (C27); under the
      browser's events, slot 3 only ever holds a value the single select
      offers and the multiple-select values are an ordered choice of the
      enabled options, never the disabled placeholder (C28).
    - Class names: the class string of each carousel arrow reads back to
      its side, its size, style and palette variants and the custom class
      (C25); the classes of the navbar's bars read back to its style and
      palette variants, in that order, and the custom class (C26).

    No bound or fuel is needed in the model of the sources: every loop is
    a [for] over a finite range, modelled by structural recursion over
    that range.  Fuel appears twice.  [Fmt]'s reader takes the length of
    its input.  The scheduler loop [run] takes one unit per message plus
    one for the final empty-queue check.  That is enough because no
    handler of these components sends messages to its own queue: the
    queue only shrinks ([run_dispatch_all], [run_none]).

    ** Plan for the rest of the development

    Done: the parser [parse_pretty_vec] of the [{:#?}] output and the
    round trip in [Fmt]; the scheduler queue ([Scheduler]); two component
    instances sharing the page-wide world, with the interleaving of their
    operations as explicit sequences of steps ([Page]); the trace of events
    emitted by the carousel over a run of clicks; the class-name strings
    of the views read back to the variant enums ([ClassNames]); the
    browser's events ([Browser]) and the form page's state invariants
    under them ([FormPageBrowser]); pages of any number of navbars
    ([ManyNavbars]) and of carousel controls under re-rendering parents
    ([ManyCarousels]).  Next:
    pages mixing more than two kinds of component.

    ** Not modelled

    The internals of the [yew_styles] building blocks ([Container],
    [Item], [FormGroup], [FormInput], [FormSelect], [NavbarContainer],
    [NavbarItem], [ControllerAssets]) are not in the sources: they appear
    as component nodes carrying the attributes and callbacks the sources
    give them.  The browser's layout, CSS values and icon assets are
    presentation data outside the program's logic.  The runtime's diffing
    and patching of the real DOM is not modelled: a component's page is
    the tree its last [view] returned. *)

From stdpp Require Import base list strings pretty.
From Stdlib Require Import Lia.

Declare Scope rust_scope.
Delimit Scope rust_scope with rust.

(** ** Panics: the error monad of the Rust code *)

(** A Rust computation either returns a value or panics with a message;
    the three source files have no recoverable errors. *)
Inductive outcome (A : Type) : Type :=
| Ret (a : A)
| Panic (reason : string).
Arguments Ret {A} a.
Arguments Panic {A} reason.

Definition obind {A B} (m : outcome A) (k : A -> outcome B) : outcome B :=
  match m with
  | Ret a => k a
  | Panic r => Panic r
  end.

Notation "x <- m ;; k" := (obind m (fun x => k))
  (at level 60, m at next level, right associativity) : rust_scope.

Open Scope rust_scope.

Definition is_panic {A} (m : outcome A) : bool :=
  match m with Ret _ => false | Panic _ => true end.

(** [Option::unwrap]. *)
Definition unwrap {A} (o : option A) : outcome A :=
  match o with
  | Some a => Ret a
  | None => Panic "called `Option::unwrap()` on a `None` value"
  end.

(** [Result::unwrap]. *)
Definition unwrap_result {A E} (r : A + E) : outcome A :=
  match r with
  | inl a => Ret a
  | inr _ => Panic "called `Result::unwrap()` on an `Err` value"
  end.

(** [unreachable!()]. *)
Definition unreachable {A} : outcome A :=
  Panic "internal error: entered unreachable code".

(** ** Vectors indexed as Rust indexes them *)

Definition index_oob_msg (len idx : nat) : string :=
  "index out of bounds: the len is " +:+ pretty len +:+
  " but the index is " +:+ pretty idx.

(** [v[i]] as an rvalue ([Index::index] on [Vec]). *)
Definition vec_index {A} (v : list A) (i : nat) : outcome A :=
  match v !! i with
  | Some x => Ret x
  | None => Panic (index_oob_msg (length v) i)
  end.

(** [v[i] = x] ([IndexMut::index_mut] on [Vec], then the assignment). *)
Definition vec_set {A} (v : list A) (i : nat) (x : A) : outcome (list A) :=
  if decide (i < length v) then Ret (<[i:=x]> v)
  else Panic (index_oob_msg (length v) i).

(** ** Lemmas on the monad *)

Lemma obind_ret {A B} (a : A) (k : A -> outcome B) : obind (Ret a) k = k a.
Proof. reflexivity. Qed.

Lemma obind_panic {A B} r (k : A -> outcome B) : obind (Panic r) k = Panic r.
Proof. reflexivity. Qed.

Lemma obind_ret_inv {A B} (m : outcome A) (k : A -> outcome B) b :
  obind m k = Ret b -> exists a, m = Ret a /\ k a = Ret b.
Proof. destruct m; simpl; [eauto | discriminate]. Qed.

Lemma obind_assoc {A B C} (m : outcome A) (k : A -> outcome B)
      (h : B -> outcome C) :
  obind (obind m k) h = obind m (fun a => obind (k a) h).
Proof. by destruct m. Qed.

Lemma is_panic_obind {A B} (m : outcome A) (k : A -> outcome B) :
  is_panic m = true -> is_panic (obind m k) = true.
Proof. by destruct m. Qed.

Lemma unwrap_some {A} (a : A) : unwrap (Some a) = Ret a.
Proof. reflexivity. Qed.

(** ** Lemmas on Rust vectors *)

Section Vectors.
Context {A : Type}.
Implicit Types (v : list A) (x : A).

Lemma vec_index_lt v i x : v !! i = Some x -> vec_index v i = Ret x.
Proof. unfold vec_index. by intros ->. Qed.

Lemma vec_index_ok v i : i < length v -> exists x, vec_index v i = Ret x /\ v !! i = Some x.
Proof.
  intros Hi. destruct (lookup_lt_is_Some_2 v i Hi) as [x Hx].
  exists x. by rewrite (vec_index_lt _ _ _ Hx).
Qed.

Lemma vec_index_ge v i : length v <= i -> vec_index v i = Panic (index_oob_msg (length v) i).
Proof. intros Hi. unfold vec_index. by rewrite lookup_ge_None_2. Qed.

Lemma vec_set_lt v i x : i < length v -> vec_set v i x = Ret (<[i:=x]> v).
Proof. intros Hi. unfold vec_set. by rewrite decide_True. Qed.

Lemma vec_set_ge v i x : length v <= i -> vec_set v i x = Panic (index_oob_msg (length v) i).
Proof. intros Hi. unfold vec_set. rewrite decide_False; [done | lia]. Qed.

(** What an in-range assignment does: slot [i] holds [x], every other
    slot is unchanged, the length is unchanged. *)
Lemma vec_set_frame v i x v' :
  vec_set v i x = Ret v' ->
  v' !! i = Some x /\ (forall j, j <> i -> v' !! j = v !! j) /\ length v' = length v.
Proof.
  unfold vec_set. case_decide; intros Heq; simplify_eq.
  split_and!; [by apply list_lookup_insert_eq | | apply length_insert].
  intros j Hj. by apply list_lookup_insert_ne.
Qed.
End Vectors.

Create HintDb rust discriminated.
Create Rewrite HintDb rust_rw.
#[export] Hint Rewrite @obind_ret @obind_panic @unwrap_some : rust_rw.
#[export] Hint Resolve vec_set_lt vec_index_lt is_panic_obind : rust.

(** Evaluate the monadic glue of a goal: unfold binds on known outcomes. *)
Ltac rust_simp := repeat (autorewrite with rust_rw in *; simpl in *).
