(* ===== verification/Styles.v ===== *)
(** * The style vocabulary of yew_styles and the page-wide style table

    [yew_styles::styles] (the [Palette], [Style] and [Size] enums and the
    functions that turn them into class-name tokens) and
    [yew_styles::utils::create_style] are called by the sources but are
    not among them; both are modelled from the spec (section 4.3): the
    enums as inductive types with the variants the library exposes, the
    class-name functions as injective maps to lower-case tokens, and the
    style side table as a finite map from (wrapper class, CSS property)
    to value, where the last write wins. *)

From stdpp Require Import base list strings gmap.
From S2P Require Import Prelude.

(** ** Variants *)

Inductive Palette :=
| Standard | Primary | Secondary | Success | Info | Link | Warning | Danger.

Inductive Style := Regular | Light | Outline.

Inductive Size := Small | Medium | Big.

#[export] Instance Palette_eq_dec : EqDecision Palette.
Proof. solve_decision. Defined.
#[export] Instance Style_eq_dec : EqDecision Style.
Proof. solve_decision. Defined.
#[export] Instance Size_eq_dec : EqDecision Size.
Proof. solve_decision. Defined.

(** [get_palette] (imported by the navbar under the older spelling
    [get_pallete]). *)
Definition get_palette (p : Palette) : string :=
  match p with
  | Standard => "standard"
  | Primary => "primary"
  | Secondary => "secondary"
  | Success => "success"
  | Info => "info"
  | Link => "link"
  | Warning => "warning"
  | Danger => "danger"
  end.

Definition get_style (s : Style) : string :=
  match s with
  | Regular => "regular"
  | Light => "light"
  | Outline => "outline"
  end.

Definition get_size (s : Size) : string :=
  match s with
  | Small => "small"
  | Medium => "medium"
  | Big => "big"
  end.

(** ** The style side table *)

(** Keys are (wrapper class name, CSS property); [create_style style value
    wrap] sets [style: value] on the element of class [wrap]. *)
Abbreviation StyleTable := (gmap (string * string) string).

Definition create_style (style value wrap : string) (t : StyleTable) : StyleTable :=
  <[(wrap, style) := value]> t.

Lemma get_palette_inj p q : get_palette p = get_palette q -> p = q.
Proof. destruct p, q; simpl; congruence. Qed.

Lemma get_style_inj s t : get_style s = get_style t -> s = t.
Proof. destruct s, t; simpl; congruence. Qed.

Lemma get_size_inj s t : get_size s = get_size t -> s = t.
Proof. destruct s, t; simpl; congruence. Qed.

Lemma create_style_lookup_eq style value wrap t :
  create_style style value wrap t !! (wrap, style) = Some value.
Proof. apply lookup_insert_eq. Qed.

Lemma create_style_lookup_ne style value wrap t k :
  k <> (wrap, style) -> create_style style value wrap t !! k = t !! k.
Proof. intros Hk. unfold create_style. by rewrite lookup_insert_ne. Qed.

(** Writing the same property twice keeps the last value. *)
Lemma create_style_last_wins style v1 v2 wrap t :
  create_style style v2 wrap (create_style style v1 wrap t) = create_style style v2 wrap t.
Proof. apply insert_insert_eq. Qed.

#[export] Hint Rewrite create_style_lookup_eq : rust_rw.
