(* ===== verification/Html.v ===== *)
(** * Yew's virtual DOM and the web_sys values the callbacks read

    What the three views build and what their callbacks receive: element
    and component nodes with string attributes and callback properties
    ([html]); the payloads Yew hands to callbacks ([InputData],
    [ChangeData.t], [MouseEvent]); the DOM select element and its option
    collection as [web_sys] exposes them ([HtmlSelectElement::value],
    [options], [HtmlOptionsCollection::length], [get_with_index],
    [dyn_into::<HtmlOptionElement>]); and the dispatch of a platform event
    to the [k]-th listener of a rendered tree ([fire_at]).  This is the
    library side of the program, modelled from the spec (sections 4.2 and
    6). *)

From stdpp Require Import base list strings.
From S2P Require Import Prelude.

(** ** Event payloads *)

(** A mouse event, known to the program only by its identity: the
    carousel forwards it unchanged. *)
Record MouseEvent := mk_mouse_event { mouse_event_id : nat }.

(** [yew::html::InputData]: the current text of the input. *)
Record InputData := mk_input_data { input_value : string }.

Record HtmlOptionElement := mk_option {
  option_value : string;
  option_selected : bool;
  option_disabled : bool;
}.

(** An item of a DOM collection, before [dyn_into] casts it. *)
Inductive Element :=
| HtmlOption (o : HtmlOptionElement)
| OtherElement (tag : string).

Abbreviation HtmlOptionsCollection := (list Element).

Record HtmlSelectElement := mk_select { select_options : HtmlOptionsCollection }.

(** [HtmlSelectElement::options], [HtmlOptionsCollection::length] and
    [HtmlOptionsCollection::get_with_index]. *)
Definition options (s : HtmlSelectElement) : HtmlOptionsCollection := select_options s.
Definition options_length (c : HtmlOptionsCollection) : nat := length c.
Definition get_with_index (c : HtmlOptionsCollection) (i : nat) : option Element := c !! i.

(** [JsCast::dyn_into::<HtmlOptionElement>]: [Err] returns the element. *)
Definition dyn_into_option (e : Element) : HtmlOptionElement + Element :=
  match e with
  | HtmlOption o => inl o
  | OtherElement t => inr (OtherElement t)
  end.

(** [HtmlSelectElement::value]: the value of the first selected option,
    or the empty string when none is selected. *)
Fixpoint first_selected_value (c : HtmlOptionsCollection) : string :=
  match c with
  | [] => ""
  | HtmlOption o :: c' =>
      if option_selected o then option_value o else first_selected_value c'
  | OtherElement _ :: c' => first_selected_value c'
  end.

Definition select_value (s : HtmlSelectElement) : string :=
  first_selected_value (select_options s).

Definition is_option (e : Element) : bool :=
  match e with HtmlOption _ => true | OtherElement _ => false end.

(** The DOM guarantees that an option collection holds only options. *)
Definition options_well_formed (c : HtmlOptionsCollection) : Prop :=
  Forall (fun e => is_option e = true) c.

(** [yew::html::ChangeData], with Yew's variant names. *)
Module ChangeData.
Inductive t :=
| Value (s : string)
| Select (element : HtmlSelectElement)
| Files (names : list string).
End ChangeData.

(** ** Virtual DOM *)

(** A callback property or DOM listener of a message type [M]: the closure
    built by [link.callback], which may panic. *)
Inductive listener (M : Type) :=
| OnInput (f : InputData -> outcome M)
| OnChange (f : ChangeData.t -> outcome M)
| OnClick (f : MouseEvent -> outcome M).
Arguments OnInput {M} f.
Arguments OnChange {M} f.
Arguments OnClick {M} f.

(** The content a parent passes as [children]: nodes owned and rendered by
    the parent, known here by their identities. *)
Record Children := mk_children { children_ids : list nat }.

#[local] Set Warnings "-register-all".
Inductive html (M : Type) :=
| VText (s : string)
| VTag (tag : string) (attrs : list (string * string))
       (listeners : list (string * listener M)) (children : list (html M))
| VComp (name : string) (props : list (string * string))
        (callbacks : list (string * listener M))
        (html_props : list (string * html M)) (children : list (html M))
| VList (children : list (html M))
| VChildren (c : Children).
Arguments VText {M} s.
Arguments VTag {M} tag attrs listeners children.
Arguments VComp {M} name props callbacks html_props children.
Arguments VList {M} children.
Arguments VChildren {M} c.

(** [html!{}]: the empty fragment. *)
Definition empty_html {M} : html M := VList [].

(** Every listener of a tree, in document order (a node's own before its
    html properties before its children). *)
Fixpoint listeners_of {M} (h : html M) : list (listener M) :=
  match h with
  | VText _ | VChildren _ => []
  | VTag _ _ ls cs => map snd ls ++ concat (map listeners_of cs)
  | VComp _ _ ls hp cs =>
      map snd ls ++ concat (map (fun p => listeners_of p.2) hp)
        ++ concat (map listeners_of cs)
  | VList cs => concat (map listeners_of cs)
  end.

(** Every text node of a tree, in document order. *)
Fixpoint texts_of {M} (h : html M) : list string :=
  match h with
  | VText s => [s]
  | VChildren _ => []
  | VTag _ _ _ cs => concat (map texts_of cs)
  | VComp _ _ _ hp cs =>
      concat (map (fun p => texts_of p.2) hp) ++ concat (map texts_of cs)
  | VList cs => concat (map texts_of cs)
  end.

(** ** Events *)

Inductive event :=
| EvInput (d : InputData)
| EvChange (d : ChangeData.t)
| EvClick (e : MouseEvent).

(** A listener only receives events of its kind. *)
Definition fire {M} (l : listener M) (e : event) : option (outcome M) :=
  match l, e with
  | OnInput f, EvInput d => Some (f d)
  | OnChange f, EvChange d => Some (f d)
  | OnClick f, EvClick m => Some (f m)
  | _, _ => None
  end.

Definition fire_at {M} (h : html M) (k : nat) (e : event) : option (outcome M) :=
  l ← listeners_of h !! k; fire l e.

(** The events a browser delivers to the listeners of this program: a
    change of a select element carries [ChangeData::Select] with a
    collection of options (every change listener of the sources sits on a
    [FormSelect]). *)
Definition dom_event_ok (e : event) : Prop :=
  match e with
  | EvChange (ChangeData.Select el) => options_well_formed (select_options el)
  | EvChange _ => False
  | _ => True
  end.

Lemma fire_at_some {M} (h : html M) k e r :
  fire_at h k e = Some r -> exists l, listeners_of h !! k = Some l /\ fire l e = Some r.
Proof. unfold fire_at. destruct (listeners_of h !! k); simpl; [eauto | discriminate]. Qed.

Lemma listeners_of_elem {M} (h : html M) k e r :
  fire_at h k e = Some r -> exists l, l ∈ listeners_of h /\ fire l e = Some r.
Proof.
  intros (l & Hl & Hf)%fire_at_some. exists l. split; [|done].
  by eapply list_elem_of_lookup_2.
Qed.

(** ** The DOM select a rendered option list produces *)

Fixpoint attr_value (k : string) (attrs : list (string * string)) : option string :=
  match attrs with
  | [] => None
  | (k', v) :: attrs' => if String.eqb k k' then Some v else attr_value k attrs'
  end.

(** The attributes of every [<option>] tag of a tree, in document order. *)
Fixpoint option_tags {M} (h : html M) : list (list (string * string)) :=
  match h with
  | VText _ | VChildren _ => []
  | VTag tag attrs _ cs =>
      if String.eqb tag "option" then [attrs] else concat (map option_tags cs)
  | VComp _ _ _ hp cs =>
      concat (map (fun p => option_tags p.2) hp) ++ concat (map option_tags cs)
  | VList cs => concat (map option_tags cs)
  end.

(** The option element the browser builds from an [<option>] tag, with
    the selection state the user gave it. *)
Definition dom_option (attrs : list (string * string)) (selected : bool) : Element :=
  HtmlOption (mk_option (default "" (attr_value "value" attrs)) selected
                        (bool_decide (attr_value "disabled" attrs = Some "true"))).

Definition dom_select {M} (h : html M) (selected : list bool) : HtmlSelectElement :=
  mk_select (zip_with dom_option (option_tags h) selected).

Lemma dom_select_well_formed {M} (h : html M) selected :
  options_well_formed (select_options (dom_select h selected)).
Proof.
  unfold dom_select, options_well_formed. simpl.
  generalize (option_tags h). induction selected as [|b bs IH]; intros [|a l]; simpl;
    constructor; auto.
Qed.

(** The parent-owned [children] a tree renders, in document order. *)
Fixpoint children_of {M} (h : html M) : list Children :=
  match h with
  | VText _ => []
  | VChildren c => [c]
  | VTag _ _ _ cs => concat (map children_of cs)
  | VComp _ _ _ hp cs =>
      concat (map (fun p => children_of p.2) hp) ++ concat (map children_of cs)
  | VList cs => concat (map children_of cs)
  end.
