(* ===== verification/Fmt.v ===== *)
(** * Rust's [Debug] formatting of strings and string vectors

    [format!("Value: {:#?}", v)] with [v : Vec<String>] (the multiple
    select of [form_pages.rs]) prints the vector in the alternate
    ("pretty") layout, each element quoted and escaped by
    [char::escape_debug].  This is the standard library's formatting,
    modelled on ASCII text: NUL, tab, carriage return, line feed, the
    backslash and the double quote are escaped with a backslash, the other
    control characters as [\u{hex}], printable characters are kept; bytes
    above 0x7f, which belong to multi-byte UTF-8 characters that Rust
    prints unchanged, are kept too. *)

From stdpp Require Import base list strings.
From Stdlib Require Import Ascii String.
From S2P Require Import Prelude.

Local Open Scope string_scope.

(** ** Characters built from their codes *)

Definition chr (n : nat) : ascii := ascii_of_nat n.
Definition str1 (n : nat) : string := String (chr n) EmptyString.

Definition quote : string := str1 34.
Definition backslash : string := str1 92.
Definition newline : string := str1 10.

Definition hex_digit (n : nat) : ascii :=
  chr (if decide (n < 10) then 48 + n else 87 + n).

(** Lower-case hexadecimal without leading zeros, for a byte. *)
Definition hex_of_byte (n : nat) : string :=
  if decide (n < 16) then String (hex_digit n) EmptyString
  else String (hex_digit (n / 16)) (String (hex_digit (n mod 16)) EmptyString).

(** ** [escape_debug] *)

(** [char::escape_debug] as [<str as Debug>::fmt] applies it (the single
    quote is not escaped inside a string). *)
Definition debug_char (c : ascii) : string :=
  let n := nat_of_ascii c in
  if decide (n = 0) then backslash +:+ "0"
  else if decide (n = 9) then backslash +:+ "t"
  else if decide (n = 10) then backslash +:+ "n"
  else if decide (n = 13) then backslash +:+ "r"
  else if decide (n = 34) then backslash +:+ quote
  else if decide (n = 92) then backslash +:+ backslash
  else if decide (n < 32 \/ n = 127) then backslash +:+ "u{" +:+ hex_of_byte n +:+ "}"
  else String c EmptyString.

Fixpoint debug_str_body (s : string) : string :=
  match s with
  | EmptyString => EmptyString
  | String c s' => debug_char c +:+ debug_str_body s'
  end.

(** [<String as Debug>::fmt]. *)
Definition debug_str (s : string) : string :=
  quote +:+ debug_str_body s +:+ quote.

(** One entry of a pretty-printed list: indented by four, a trailing
    comma, a line break. *)
Definition debug_pretty_entry (s : string) : string :=
  "    " +:+ debug_str s +:+ "," +:+ newline.

(** [<Vec<String> as Debug>::fmt] in the alternate form [{:#?}]: [[]] when
    empty, else one entry per line between brackets. *)
Definition debug_pretty_vec (v : list string) : string :=
  match v with
  | [] => "[]"
  | _ => "[" +:+ newline +:+ foldr (fun s acc => debug_pretty_entry s +:+ acc) "]" v
  end.

(** ** Reading the output back *)

(** The state of the string-literal reader: plain text, after a
    backslash, after [\u], inside [\u{..}] with the value read so far. *)
Inductive lit_mode := Plain | Esc | UniOpen | Uni (acc : nat).

Definition hex_value (c : ascii) : option nat :=
  let n := nat_of_ascii c in
  if decide (48 <= n <= 57) then Some (n - 48)
  else if decide (97 <= n <= 102) then Some (n - 87)
  else None.

Definition snoc (acc : string) (c : ascii) : string := acc +:+ String c EmptyString.

(** Reads the body of a string literal up to its closing quote: the text
    read and the rest of the input. *)
Fixpoint parse_lit (m : lit_mode) (s acc : string) : option (string * string) :=
  match s with
  | EmptyString => None
  | String c s' =>
      let n := nat_of_ascii c in
      match m with
      | Plain =>
          if decide (n = 34) then Some (acc, s')
          else if decide (n = 92) then parse_lit Esc s' acc
          else parse_lit Plain s' (snoc acc c)
      | Esc =>
          if decide (n = 48) then parse_lit Plain s' (snoc acc (chr 0))
          else if decide (n = 116) then parse_lit Plain s' (snoc acc (chr 9))
          else if decide (n = 110) then parse_lit Plain s' (snoc acc (chr 10))
          else if decide (n = 114) then parse_lit Plain s' (snoc acc (chr 13))
          else if decide (n = 34) then parse_lit Plain s' (snoc acc (chr 34))
          else if decide (n = 92) then parse_lit Plain s' (snoc acc (chr 92))
          else if decide (n = 117) then parse_lit UniOpen s' acc
          else None
      | UniOpen => if decide (n = 123) then parse_lit (Uni 0) s' acc else None
      | Uni v =>
          if decide (n = 125) then parse_lit Plain s' (snoc acc (chr v))
          else match hex_value c with
               | Some d => parse_lit (Uni (v * 16 + d)) s' acc
               | None => None
               end
      end
  end.

(** A quoted string literal at the head of the input. *)
Definition parse_debug_str (s : string) : option (string * string) :=
  match s with
  | String c s' => if decide (nat_of_ascii c = 34) then parse_lit Plain s' EmptyString else None
  | EmptyString => None
  end.

Fixpoint strip_prefix (p s : string) : option string :=
  match p, s with
  | EmptyString, _ => Some s
  | String c p', String d s' => if decide (c = d) then strip_prefix p' s' else None
  | String _ _, EmptyString => None
  end.

(** The entries of a pretty-printed list, up to its closing bracket; the
    fuel is the length of the input, which bounds the number of entries. *)
Fixpoint parse_entries (fuel : nat) (s : string) : option (list string) :=
  match fuel with
  | 0 => None
  | S fuel' =>
      if decide (s = "]") then Some []
      else match strip_prefix "    " s with
           | None => None
           | Some r =>
               match parse_debug_str r with
               | None => None
               | Some (x, r') =>
                   match strip_prefix ("," +:+ newline) r' with
                   | None => None
                   | Some r'' =>
                       match parse_entries fuel' r'' with
                       | None => None
                       | Some xs => Some (x :: xs)
                       end
                   end
               end
           end
  end.

Definition parse_pretty_vec (s : string) : option (list string) :=
  if decide (s = "[]") then Some []
  else match strip_prefix ("[" +:+ newline) s with
       | None => None
       | Some r => parse_entries (String.length r) r
       end.

(** ** The round trip *)

(** stdpp makes [String.append] opaque to [simpl]; these are its two
    equations. *)
Lemma str_app_nil_l (b : string) : EmptyString +:+ b = b.
Proof. reflexivity. Qed.

Lemma str_app_cons (x : ascii) (a b : string) : String x a +:+ b = String x (a +:+ b).
Proof. reflexivity. Qed.

Create Rewrite HintDb str_rw.
#[export] Hint Rewrite str_app_nil_l str_app_cons : str_rw.

Lemma str_app_assoc (a b c : string) : (a +:+ b) +:+ c = a +:+ (b +:+ c).
Proof. induction a as [|x a IH]; autorewrite with str_rw; congruence. Qed.

Lemma str_app_nil_r (a : string) : a +:+ EmptyString = a.
Proof. induction a as [|x a IH]; autorewrite with str_rw; congruence. Qed.

#[export] Hint Rewrite str_app_assoc str_app_nil_r : str_rw.

Lemma snoc_app (acc s : string) (c : ascii) : snoc acc c +:+ s = acc +:+ String c s.
Proof. unfold snoc. by rewrite str_app_assoc. Qed.

Lemma chr_code (c : ascii) k : nat_of_ascii c = k -> chr k = c.
Proof. intros <-. apply ascii_nat_embedding. Qed.

Lemma code_chr k : k < 256 -> nat_of_ascii (chr k) = k.
Proof. apply nat_ascii_embedding. Qed.

Lemma strip_prefix_app (p r : string) : strip_prefix p (p +:+ r) = Some r.
Proof. induction p as [|c p IH]; rewrite ?str_app_cons; simpl; [done | by rewrite decide_True]. Qed.

Lemma hex_digit_code n : n < 16 -> nat_of_ascii (hex_digit n) = if decide (n < 10) then 48 + n else 87 + n.
Proof. intros Hn. unfold hex_digit. apply code_chr. case_decide; lia. Qed.

(** One hexadecimal digit inside [\u{..}]. *)
Lemma parse_lit_hex_digit v n (r acc : string) :
  n < 16 -> parse_lit (Uni v) (String (hex_digit n) r) acc = parse_lit (Uni (v * 16 + n)) r acc.
Proof.
  intros Hn. simpl. unfold hex_value. rewrite hex_digit_code by done.
  destruct (decide (n < 10)); repeat case_decide; try lia; do 2 f_equal; lia.
Qed.

Lemma parse_lit_close_brace v (r acc : string) :
  parse_lit (Uni v) (String (chr 125) r) acc = parse_lit Plain r (snoc acc (chr v)).
Proof. reflexivity. Qed.

(** The digits [hex_of_byte] prints and the closing brace give back the
    character. *)
Lemma parse_lit_hex_of_byte n (r acc : string) :
  n < 256 ->
  parse_lit (Uni 0) (hex_of_byte n +:+ String (chr 125) r) acc = parse_lit Plain r (snoc acc (chr n)).
Proof.
  intros Hn. unfold hex_of_byte. case_decide as Hsmall; autorewrite with str_rw.
  - rewrite parse_lit_hex_digit, parse_lit_close_brace by done. done.
  - assert (Hd : n / 16 < 16) by (apply Nat.Div0.div_lt_upper_bound; lia).
    assert (Hm : n mod 16 < 16) by (apply Nat.mod_upper_bound; lia).
    rewrite !parse_lit_hex_digit, parse_lit_close_brace by done.
    do 3 f_equal. pose proof (Nat.div_mod_eq n 16). lia.
Qed.

(** Every character, escaped or not, reads back as itself. *)
Lemma parse_lit_debug_char (c : ascii) (r acc : string) :
  parse_lit Plain (debug_char c +:+ r) acc = parse_lit Plain r (snoc acc c).
Proof.
  pose proof (nat_ascii_bounded c) as Hb.
  unfold debug_char. repeat case_decide.
  all: try (rewrite <- (chr_code c _ ltac:(eassumption)); reflexivity).
  - rewrite !str_app_assoc.
    transitivity (parse_lit (Uni 0) (hex_of_byte (nat_of_ascii c) +:+ String (chr 125) r) acc);
      [reflexivity|].
    rewrite parse_lit_hex_of_byte by done. by rewrite (chr_code c _ eq_refl).
  - rewrite str_app_cons, str_app_nil_l. simpl. by rewrite !decide_False by done.
Qed.

Lemma parse_lit_body (s r acc : string) :
  parse_lit Plain (debug_str_body s +:+ quote +:+ r) acc = Some (acc +:+ s, r).
Proof.
  revert acc. induction s as [|c s IH]; intros acc; simpl.
  - by rewrite str_app_nil_l, str_app_nil_r.
  - rewrite str_app_assoc, parse_lit_debug_char, IH. by rewrite snoc_app.
Qed.

Lemma parse_debug_str_app (s r : string) :
  parse_debug_str (debug_str s +:+ r) = Some (s, r).
Proof.
  unfold debug_str, quote, str1. rewrite !str_app_assoc, str_app_cons, str_app_nil_l.
  simpl. fold (str1 34). fold quote. by rewrite parse_lit_body.
Qed.

Lemma str_app_inv_l (p a b : string) : p +:+ a = p +:+ b -> a = b.
Proof.
  induction p as [|x p IH]; autorewrite with str_rw; [done|].
  intros H. injection H as H. by apply IH.
Qed.

Lemma str_length_app (a b : string) : String.length (a +:+ b) = String.length a + String.length b.
Proof. induction a as [|x a IH]; autorewrite with str_rw; simpl; lia. Qed.

Definition pretty_entries (v : list string) : string :=
  foldr (fun s acc => debug_pretty_entry s +:+ acc) "]" v.

Lemma pretty_entries_cons (x : string) (v : list string) :
  pretty_entries (x :: v) = debug_pretty_entry x +:+ pretty_entries v.
Proof. reflexivity. Qed.

Lemma entry_app (x rest : string) :
  debug_pretty_entry x +:+ rest = "    " +:+ (debug_str x +:+ (("," +:+ newline) +:+ rest)).
Proof. unfold debug_pretty_entry. by rewrite !str_app_assoc. Qed.

Lemma pretty_entries_length (v : list string) : List.length v < String.length (pretty_entries v).
Proof.
  induction v as [|x v IH]; [simpl; lia|].
  rewrite pretty_entries_cons, entry_app, !str_length_app. simpl. lia.
Qed.

Lemma parse_entries_S fuel s :
  parse_entries (S fuel) s =
    if decide (s = "]") then Some []
    else match strip_prefix "    " s with
         | None => None
         | Some r =>
             match parse_debug_str r with
             | None => None
             | Some (x, r') =>
                 match strip_prefix ("," +:+ newline) r' with
                 | None => None
                 | Some r'' =>
                     match parse_entries fuel r'' with
                     | None => None
                     | Some xs => Some (x :: xs)
                     end
                 end
             end
         end.
Proof. reflexivity. Qed.

Lemma parse_entries_pretty (v : list string) fuel :
  List.length v < fuel -> parse_entries fuel (pretty_entries v) = Some v.
Proof.
  revert fuel. induction v as [|x v IH]; intros [|fuel] Hf; simpl in Hf; try lia.
  - done.
  - rewrite pretty_entries_cons, entry_app, parse_entries_S, decide_False by discriminate.
    rewrite strip_prefix_app, parse_debug_str_app, strip_prefix_app.
    rewrite IH by lia. done.
Qed.

(** The [{:#?}] text of a string vector determines it: reading it back
    gives the vector, for every vector of ASCII strings. *)
Theorem parse_pretty_vec_roundtrip (v : list string) :
  parse_pretty_vec (debug_pretty_vec v) = Some v.
Proof.
  destruct v as [|x v]; [reflexivity|].
  unfold debug_pretty_vec, parse_pretty_vec. fold (pretty_entries (x :: v)).
  rewrite decide_False.
  - rewrite <- str_app_assoc, strip_prefix_app.
    apply parse_entries_pretty. apply pretty_entries_length.
  - unfold newline, str1. autorewrite with str_rw. discriminate.
Qed.

(** Two vectors print alike only when they are equal. *)
Corollary debug_pretty_vec_inj (v w : list string) :
  debug_pretty_vec v = debug_pretty_vec w -> v = w.
Proof.
  intros H. apply (f_equal parse_pretty_vec) in H.
  rewrite !parse_pretty_vec_roundtrip in H. by injection H.
Qed.
