(* ===== verification/ClassNames.v ===== *)
(** * Class-name strings and their reader

    The views build their [class] attributes with [format!]: words
    separated by single spaces ([join_words]), the class-name tokens of
    the [Palette], [Style] and [Size] variants among them, and the
    caller's [class_name] last.  This file gives the reader of such
    strings: [split_word] cuts at the first space (as [str::split_once]),
    [read_words] takes a given number of words off the front, and
    [of_token] inverts a token function on a finite enumeration.  The
    round trip [read_words_join] and [of_token_inv] are what the
    components' class-name theorems are built from. *)

From stdpp Require Import base list strings sets finite.
From Stdlib Require Import Ascii String.
From S2P Require Import Prelude Styles Fmt.

Local Open Scope string_scope.

Definition space : ascii := chr 32.

Fixpoint no_space (s : string) : bool :=
  match s with
  | EmptyString => true
  | String c s' => bool_decide (c <> space) && no_space s'
  end.

(** The word before the first space and, when there is a space, the text
    after it. *)
Fixpoint split_word (s : string) : string * option string :=
  match s with
  | EmptyString => (EmptyString, None)
  | String c s' =>
      if decide (c = space) then (EmptyString, Some s')
      else let '(w, r) := split_word s' in (String c w, r)
  end.

(** [format!("{} {} .. {}", w1, .., wn, rest)]. *)
Definition join_words (ws : list string) (rest : string) : string :=
  foldr (fun w acc => w +:+ " " +:+ acc) rest ws.

Fixpoint read_words (n : nat) (s : string) : option (list string * string) :=
  match n with
  | 0 => Some ([], s)
  | S n' =>
      match split_word s with
      | (w, Some r) => '(ws, rest) ← read_words n' r; Some (w :: ws, rest)
      | (_, None) => None
      end
  end.

(** The variant whose token is [s], searched in the enumeration. *)
Definition of_token {A} `{Finite A} (f : A -> string) (s : string) : option A :=
  head (filter (fun a => f a = s) (enum A)).

(** ** The variant enums are finite, their tokens injective *)

#[export, program] Instance Palette_finite : Finite Palette :=
  {| enum := [Standard; Primary; Secondary; Success; Info; Link; Warning; Danger] |}.
Next Obligation. apply (bool_decide_unpack _). by vm_compute. Qed.
Next Obligation. intros []; set_solver. Qed.

#[export, program] Instance Style_finite : Finite Style :=
  {| enum := [Regular; Light; Outline] |}.
Next Obligation. apply (bool_decide_unpack _). by vm_compute. Qed.
Next Obligation. intros []; set_solver. Qed.

#[export, program] Instance Size_finite : Finite Size :=
  {| enum := [Small; Medium; Big] |}.
Next Obligation. apply (bool_decide_unpack _). by vm_compute. Qed.
Next Obligation. intros []; set_solver. Qed.

#[export] Instance get_palette_Inj : Inj eq eq get_palette := get_palette_inj.
#[export] Instance get_style_Inj : Inj eq eq get_style := get_style_inj.
#[export] Instance get_size_Inj : Inj eq eq get_size := get_size_inj.

Lemma get_palette_no_space p : no_space (get_palette p) = true.
Proof. by destruct p. Qed.
Lemma get_style_no_space s : no_space (get_style s) = true.
Proof. by destruct s. Qed.
Lemma get_size_no_space s : no_space (get_size s) = true.
Proof. by destruct s. Qed.

Create HintDb tokens discriminated.
#[export] Hint Resolve get_palette_no_space get_style_no_space get_size_no_space : tokens.

(** ** Round trips *)

Lemma split_word_app (a b : string) :
  no_space a = true -> split_word (a +:+ " " +:+ b) = (a, Some b).
Proof.
  induction a as [|c a IH]; intros Ha; [reflexivity|].
  apply andb_true_iff in Ha as [Hc Ha]. apply bool_decide_eq_true in Hc.
  rewrite str_app_cons. simpl. rewrite decide_False by done. by rewrite IH.
Qed.

Lemma read_words_join (ws : list string) (rest : string) :
  Forall (fun w => no_space w = true) ws ->
  read_words (List.length ws) (join_words ws rest) = Some (ws, rest).
Proof.
  unfold join_words. induction 1 as [|w ws Hw _ IH]; [done|].
  cbn [List.length read_words foldr]. by rewrite split_word_app, IH.
Qed.

(** The first element of [l] satisfying [P] is [a] when [a] is the only
    one. *)
Lemma head_filter_unique {A} (P : A -> Prop) `{!forall x, Decision (P x)} (l : list A) a :
  a ∈ l -> P a -> (forall y, y ∈ l -> P y -> y = a) -> head (filter P l) = Some a.
Proof.
  induction l as [|x l IH]; intros Hin HP Hu; [by apply elem_of_nil in Hin|].
  rewrite filter_cons. case_decide as Hx.
  - simpl. f_equal. apply Hu; [by left | done].
  - apply elem_of_cons in Hin as [->|Hin]; [done|].
    apply IH; [done | done | intros y Hy; apply Hu; by right].
Qed.

Lemma of_token_inv {A} `{Finite A} (f : A -> string) `{!Inj eq eq f} a :
  of_token f (f a) = Some a.
Proof.
  apply head_filter_unique; [apply elem_of_enum | done |].
  intros y _. apply (inj f).
Qed.

Lemma of_token_sound {A} `{Finite A} (f : A -> string) s a :
  of_token f s = Some a -> f a = s.
Proof.
  unfold of_token. destruct (filter _ _) as [|x l] eqn:Hf; [done|].
  intros [= ->]. assert (Hx : a ∈ filter (fun a => f a = s) (enum A)) by (rewrite Hf; left).
  by apply list_elem_of_filter in Hx as [? _].
Qed.

