(* ===== verification/Yew.v ===== *)
(** * The Yew component contract and its runtime

    Yew 0.16 drives a component through the [Component] trait: [create]
    builds the state from the configuration, the runtime renders [view],
    calls [mounted], and from then on folds every message with [update]
    and every new configuration with [change]; the [ShouldRender] flag
    they return decides whether [view] runs again.  Here the trait is the
    class [Component] over explicit state passing on the page-wide [World]
    (the style side table of [Styles], and the events emitted to parent
    callbacks), the runtime is [mount], [dispatch], [reconfigure] and
    [handle_event], and [step]/[reachable] are its transition relation.

    The runtime's guarantee, [render_consistent], is proved once against
    the class and its [RenderLaws]; each component file discharges the
    laws.  Yew is a library the sources call: this file is modelled from
    the spec (section 4.1). *)

From stdpp Require Import base list strings gmap.
From S2P Require Import Prelude Styles Html.

(** ** The world shared by all component instances *)

(** [yew::Callback<MouseEvent>]: Yew compares callbacks by the identity of
    the closure they wrap ([Rc::ptr_eq]); the closure itself belongs to the
    parent. *)
Record Callback := mk_callback { callback_id : positive }.

#[export] Instance Callback_eq_dec : EqDecision Callback.
Proof. solve_decision. Defined.

(** [yew::NodeRef], also compared by identity; [NodeRef::default()]
    allocates a fresh one. *)
Record NodeRef := mk_node_ref { node_ref_id : nat }.

#[export] Instance NodeRef_eq_dec : EqDecision NodeRef.
Proof. solve_decision. Defined.

Record World := mk_world {
  styles : StyleTable;
  emitted : list (Callback * MouseEvent);
}.

Definition empty_world : World := mk_world ∅ [].

Definition with_styles (f : StyleTable -> StyleTable) (w : World) : World :=
  mk_world (f (styles w)) (emitted w).

(** [Callback::emit]: the event reaches the parent's handler. *)
Definition emit (cb : Callback) (e : MouseEvent) (w : World) : World :=
  mk_world (styles w) (emitted w ++ [(cb, e)]).

(** ** The [Component] trait *)

(** The result of a lifecycle method: the new state, [ShouldRender], and
    the world after the method's effects. *)
Abbreviation Lifecycle C := (outcome (C * bool * World)).

Class Component (C P M : Type) := {
  c_create : P -> C;
  c_mounted : C -> World -> Lifecycle C;
  c_update : C -> M -> World -> Lifecycle C;
  c_change : C -> P -> World -> Lifecycle C;
  c_view : C -> outcome (html M);
}.

(** The default [Component::mounted] of Yew 0.16: no effect, no render. *)
Definition default_mounted {C} (c : C) (w : World) : Lifecycle C := Ret (c, false, w).

(** The contract the runtime relies on (spec 4.1): a lifecycle method may
    answer "no re-render" only when the view it would render is the view
    already on screen. *)
Class RenderLaws (C P M : Type) `{!Component C P M} := {
  mounted_quiet c w c' w' : c_mounted c w = Ret (c', false, w') -> c_view c' = c_view c;
  update_quiet c m w c' w' : c_update c m w = Ret (c', false, w') -> c_view c' = c_view c;
  change_quiet c p w c' w' : c_change c p w = Ret (c', false, w') -> c_view c' = c_view c;
}.

(** The reconfiguration contract of spec 4.1: [change] compares the
    stored configuration with the new one by value; when they differ it
    adopts the new one and asks to re-render, when they are equal it asks
    for nothing.  [conv] is the conversion the component applies to a
    configuration before storing it, [props_of] reads the stored one. *)
Definition reconfigure_contract {C P M Q : Type} `{!Component C P M} `{!EqDecision Q}
    (conv : P -> Q) (props_of : C -> Q) : Prop :=
  forall c p w, exists c' w',
    c_change c p w = Ret (c', negb (bool_decide (props_of c = conv p)), w') /\
    props_of c' = conv p.

(** ** The runtime *)

Section Runtime.
Context {C P M : Type} `{!Component C P M}.

Record Instance := mk_instance {
  inst_state : C;
  inst_world : World;
  inst_dom : html M;
}.

(** Apply the outcome of a lifecycle method: render again when asked. *)
Definition commit (dom : html M) (r : Lifecycle C) : outcome Instance :=
  match r with
  | Ret (c', true, w') => dom' <- c_view c';; Ret (mk_instance c' w' dom')
  | Ret (c', false, w') => Ret (mk_instance c' w' dom)
  | Panic s => Panic s
  end.

Definition mount (p : P) (w : World) : outcome Instance :=
  let c := c_create p in
  dom <- c_view c;;
  commit dom (c_mounted c w).

Definition dispatch (i : Instance) (m : M) : outcome Instance :=
  commit (inst_dom i) (c_update (inst_state i) m (inst_world i)).

Definition reconfigure (i : Instance) (p : P) : outcome Instance :=
  commit (inst_dom i) (c_change (inst_state i) p (inst_world i)).

(** A platform event on the [k]-th listener of the page: the callback
    builds a message, which is dispatched. *)
Definition handle_event (i : Instance) (k : nat) (e : event) : option (outcome Instance) :=
  r ← fire_at (inst_dom i) k e;
  Some (m <- r;; dispatch i m).

(** One step of the runtime: a browser event on the rendered page, a new
    configuration from the parent, or another component writing the
    shared world. *)
Inductive step : Instance -> Instance -> Prop :=
| step_event i i' k e :
    dom_event_ok e -> handle_event i k e = Some (Ret i') -> step i i'
| step_props i i' p :
    reconfigure i p = Ret i' -> step i i'
| step_env i w :
    step i (mk_instance (inst_state i) w (inst_dom i)).

Inductive reachable (p0 : P) (w0 : World) : Instance -> Prop :=
| reach_mount i : mount p0 w0 = Ret i -> reachable p0 w0 i
| reach_step i i' : reachable p0 w0 i -> step i i' -> reachable p0 w0 i'.

Lemma handle_event_ret i k e i' :
  handle_event i k e = Some (Ret i') ->
  exists m, fire_at (inst_dom i) k e = Some (Ret m) /\ dispatch i m = Ret i'.
Proof.
  unfold handle_event. destruct (fire_at _ _ _) as [[m|]|]; simpl;
    intros; simplify_eq; eauto.
Qed.

Lemma handle_event_some i k e r :
  handle_event i k e = Some r ->
  exists r0, fire_at (inst_dom i) k e = Some r0 /\ r = (m <- r0;; dispatch i m).
Proof.
  unfold handle_event. destruct (fire_at _ _ _) as [r0|]; simpl;
    intros; simplify_eq; eauto.
Qed.

(** The state a commit installs is the one the method returned. *)
Lemma commit_state dom r i :
  commit dom r = Ret i -> exists b, r = Ret (inst_state i, b, inst_world i).
Proof.
  destruct r as [[[c' []] w']|]; simpl; intros Hc; try discriminate.
  - destruct (c_view c'); simpl in Hc; simplify_eq; eauto.
  - simplify_eq. eauto.
Qed.

(** A committed instance shows the view of its state, provided the
    method's "no re-render" answers are honest. *)
Lemma commit_shows c dom r i :
  c_view c = Ret dom ->
  (forall c' w', r = Ret (c', false, w') -> c_view c' = c_view c) ->
  commit dom r = Ret i -> c_view (inst_state i) = Ret (inst_dom i).
Proof.
  intros Hv Hq. destruct r as [[[c' []] w']|]; simpl; intros Hc.
  - destruct (c_view c') eqn:E; simpl in Hc; simplify_eq; done.
  - simplify_eq. simpl. rewrite (Hq c' w' eq_refl). done.
  - discriminate.
Qed.
End Runtime.
Arguments Instance C M : clear implicits.

Section Consistency.
Context {C P M : Type} `{!Component C P M} `{!RenderLaws C P M}.

(** The page on screen is always the view of the current state: the
    runtime never shows a stale rendering. *)
Theorem render_consistent p0 w0 (i : Instance C M) :
  reachable p0 w0 i -> c_view (inst_state i) = Ret (inst_dom i).
Proof.
  induction 1 as [i Hm | i i' _ IH Hs].
  - unfold mount in Hm. destruct (c_view (c_create p0)) eqn:Hv; [|discriminate].
    simpl in Hm. eapply commit_shows; [exact Hv | | exact Hm].
    intros ? ? Hr. by eapply mounted_quiet.
  - destruct Hs as [i i' k e _ Hh | i i' p Hr | i w]; [| |exact IH].
    + destruct (handle_event_ret _ _ _ _ Hh) as (m & _ & Hd).
      eapply commit_shows; [exact IH | | exact Hd].
      intros ? ? Hu. by eapply update_quiet.
    + eapply commit_shows; [exact IH | | exact Hr].
      intros ? ? Hu. by eapply change_quiet.
Qed.
End Consistency.
