(* ===== verification/Scheduler.v ===== *)
(** * Yew's scheduler: queued messages and sequences of events

    Messages sent through a component's link are queued and processed one
    at a time, in the order they were sent; the scheduler loop runs until
    the queue is empty ([run], with fuel).  Browser events reach the page
    one after the other ([handle_events]).  Both are library behaviour of
    Yew 0.16, modelled from the spec (sections 4.1 and 5: single-threaded,
    synchronous, every fold completes).  The lemmas show that the loop
    needs no more fuel than the queue is long and that it folds
    [dispatch] over the queue in order. *)

From stdpp Require Import base list.
From S2P Require Import Prelude Html Yew.

Section Scheduler.
Context {C P M : Type} `{!Component C P M}.

Record Scheduler := mk_scheduler {
  sched_inst : Instance C M;
  sched_queue : list M;
}.

(** [ComponentLink::send_message]: the message joins the back of the queue. *)
Definition send (s : Scheduler) (m : M) : Scheduler :=
  mk_scheduler (sched_inst s) (sched_queue s ++ [m]).

(** The scheduler loop: pop the front message and dispatch it, until the
    queue is empty or a handler panics; [None] only when out of fuel. *)
Fixpoint run (fuel : nat) (s : Scheduler) : option (outcome (Instance C M)) :=
  match fuel with
  | 0 => None
  | S fuel' =>
      match sched_queue s with
      | [] => Some (Ret (sched_inst s))
      | m :: q =>
          match dispatch (sched_inst s) m with
          | Ret i' => run fuel' (mk_scheduler i' q)
          | Panic r => Some (Panic r)
          end
      end
  end.

(** The reference: [dispatch] folded over the messages in order. *)
Fixpoint dispatch_all (i : Instance C M) (ms : list M) : outcome (Instance C M) :=
  match ms with
  | [] => Ret i
  | m :: ms' => i' <- dispatch i m;; dispatch_all i' ms'
  end.

(** A sequence of browser events on the page, each on the listener it
    names; [None] when one names no listener of its kind. *)
Fixpoint handle_events (i : Instance C M) (evs : list (nat * event)) : option (outcome (Instance C M)) :=
  match evs with
  | [] => Some (Ret i)
  | (k, e) :: evs' =>
      r ← handle_event i k e;
      match r with
      | Ret i' => handle_events i' evs'
      | Panic s => Some (Panic s)
      end
  end.

Lemma run_dispatch_all fuel i q :
  length q < fuel -> run fuel (mk_scheduler i q) = Some (dispatch_all i q).
Proof.
  revert fuel i. induction q as [|m q IH]; intros [|fuel] i Hf; simpl in *; try lia; [done|].
  destruct (dispatch i m); simpl; [apply IH; lia | done].
Qed.

(** The loop only runs out of fuel when the fuel is at most the length of
    the queue. *)
Lemma run_none fuel s : run fuel s = None -> fuel <= length (sched_queue s).
Proof.
  destruct s as [i q]. intros Hr. simpl.
  destruct (decide (length q < fuel)) as [Hlt|]; [|lia].
  by rewrite run_dispatch_all in Hr.
Qed.

Lemma dispatch_all_app i ms1 ms2 :
  dispatch_all i (ms1 ++ ms2) = i' <- dispatch_all i ms1;; dispatch_all i' ms2.
Proof.
  revert i. induction ms1 as [|m ms1 IH]; intros i; simpl; [done|].
  destruct (dispatch i m); simpl; [apply IH | done].
Qed.

(** Every state of a run of events is reachable when the first one is. *)
Lemma handle_events_reachable p0 w0 i evs i' :
  reachable p0 w0 i -> Forall (fun ke => dom_event_ok ke.2) evs ->
  handle_events i evs = Some (Ret i') -> reachable p0 w0 i'.
Proof.
  revert i. induction evs as [|[k e] evs IH]; intros i Hr Hok Hh; simpl in Hh.
  - by simplify_eq.
  - inversion Hok as [|? ? He Hok']; subst.
    destruct (handle_event i k e) as [[i1|s]|] eqn:Hk; simpl in Hh; try discriminate.
    eapply IH; [| done | exact Hh]. eapply reach_step; [exact Hr|].
    eapply step_event; [exact He | exact Hk].
Qed.
End Scheduler.
Arguments Scheduler C M : clear implicits.
