(* ===== verification/Browser.v ===== *)
(** * What the browser delivers to the rendered page

    [Yew.reachable] lets any event the DOM can build reach any listener
    ([dom_event_ok]).  The browser is more specific: a change event of a
    select carries that select element, whose options are the [<option>]
    tags the page rendered for the node holding the listener, each with
    the selection the user gave it, and the user cannot select a disabled
    option.  This file pairs every listener of a tree with the option tags
    of its node ([listener_sites]), states which events the browser
    delivers ([browser_event]), and gives the runtime's steps and reachable
    states over a given set of admissible events ([step_in],
    [reachable_in]); [Yew.reachable] is the instance for [dom_event_ok]
    ([reachable_in_dom]) and every browser run is one of its runs
    ([reachable_in_reachable]).  This is library behaviour, modelled from
    the spec (sections 4.2 and 6) and the HTML rules for [<select>]. *)

From stdpp Require Import base list strings.
From S2P Require Import Prelude Html Yew.

(** ** Induction on trees *)

(** The children of a node are a list, so the generated induction
    principle gives no hypothesis on them; this one does. *)
Section HtmlInd.
Context {M : Type} (P : html M -> Prop).
Hypothesis Htext : forall s, P (VText s).
Hypothesis Htag : forall tag attrs ls cs, Forall P cs -> P (VTag tag attrs ls cs).
Hypothesis Hcomp : forall n ps ls hp cs,
  Forall (fun p => P p.2) hp -> Forall P cs -> P (VComp n ps ls hp cs).
Hypothesis Hlist : forall cs, Forall P cs -> P (VList cs).
Hypothesis Hchildren : forall c, P (VChildren c).

Lemma html_ind' : forall h, P h.
Proof.
  fix IH 1. intros [s|tag attrs ls cs|n ps ls hp cs|cs|c];
    [apply Htext | apply Htag | apply Hcomp | apply Hlist | apply Hchildren];
    try (induction cs as [|c cs IHcs]; constructor; [apply IH | exact IHcs]).
  induction hp as [|p hp IHhp]; constructor; [apply IH | exact IHhp].
Qed.
End HtmlInd.

(** ** Listeners and the options of their node *)

(** Every listener of a tree, in the order of [listeners_of], with the
    [<option>] tags of the node it is attached to: a component's html
    properties, an element's children. *)
Fixpoint listener_sites {M} (h : html M) : list (listener M * list (list (string * string))) :=
  match h with
  | VText _ | VChildren _ => []
  | VTag _ _ ls cs =>
      map (fun l => (l.2, concat (map option_tags cs))) ls ++ concat (map listener_sites cs)
  | VComp _ _ ls hp cs =>
      map (fun l => (l.2, concat (map (fun p => option_tags p.2) hp))) ls ++
      concat (map (fun p => listener_sites p.2) hp) ++ concat (map listener_sites cs)
  | VList cs => concat (map listener_sites cs)
  end.

Lemma map_fst_concat {A B C} (f : A -> list (B * C)) (g : A -> list B) (l : list A) :
  Forall (fun x => map fst (f x) = g x) l -> map fst (concat (map f l)) = concat (map g l).
Proof. induction 1 as [|x l Hx _ IH]; simpl; [done|]. by rewrite map_app, Hx, IH. Qed.

Lemma map_fst_pair {A B C} (f : A -> B) (c : C) (l : list A) :
  map fst (map (fun x => (f x, c)) l) = map f l.
Proof. by rewrite map_map. Qed.

Lemma listener_sites_fst {M} (h : html M) : map fst (listener_sites h) = listeners_of h.
Proof.
  induction h using html_ind'; simpl; rewrite ?map_app, ?map_fst_pair;
    repeat f_equal; by apply map_fst_concat.
Qed.

(** ** The events the browser delivers *)

(** No option of the collection is both selected and disabled. *)
Definition selection_ok (c : HtmlOptionsCollection) : bool :=
  forallb (fun e => match e with
                    | HtmlOption o => negb (option_selected o && option_disabled o)
                    | OtherElement _ => true
                    end) c.

(** A change event on listener [k] carries the select element built from
    the option tags of the listener's node, one option per tag, with a
    selection the user can make; input and click events carry any
    payload. *)
Definition browser_event {M} (h : html M) (k : nat) (e : event) : Prop :=
  match e with
  | EvChange (ChangeData.Select el) =>
      exists tags sel, snd <$> listener_sites h !! k = Some tags /\
        length sel = length tags /\
        select_options el = zip_with dom_option tags sel /\
        selection_ok (select_options el) = true
  | EvChange _ => False
  | _ => True
  end.

Lemma dom_options_well_formed tags sel : options_well_formed (zip_with dom_option tags sel).
Proof.
  unfold options_well_formed. revert sel.
  induction tags as [|a tags IH]; intros [|b sel]; simpl; constructor; auto.
Qed.

Lemma browser_event_ok {M} (h : html M) k e : browser_event h k e -> dom_event_ok e.
Proof.
  destruct e as [d|[s|el|fs]|me]; simpl; try done.
  intros (tags & sel & _ & _ & -> & _). apply dom_options_well_formed.
Qed.

(** ** Runs over admissible events *)

Section Admissible.
Context {C P M : Type} `{!Component C P M}.
Context (ok : html M -> nat -> event -> Prop).

Inductive step_in : Instance C M -> Instance C M -> Prop :=
| step_in_event i i' k e :
    ok (inst_dom i) k e -> handle_event i k e = Some (Ret i') -> step_in i i'
| step_in_props i i' p :
    reconfigure i p = Ret i' -> step_in i i'
| step_in_env i w :
    step_in i (mk_instance (inst_state i) w (inst_dom i)).

Inductive reachable_in (p0 : P) (w0 : World) : Instance C M -> Prop :=
| reach_in_mount i : mount p0 w0 = Ret i -> reachable_in p0 w0 i
| reach_in_step i i' : reachable_in p0 w0 i -> step_in i i' -> reachable_in p0 w0 i'.
End Admissible.

Section Bridges.
Context {C P M : Type} `{!Component C P M}.

(** Runs over admissible events that the DOM can build are runs of the
    runtime. *)
Lemma reachable_in_reachable (ok : html M -> nat -> event -> Prop) p0 w0 (i : Instance C M) :
  (forall h k e, ok h k e -> dom_event_ok e) ->
  reachable_in ok p0 w0 i -> reachable p0 w0 i.
Proof.
  intros Hok. induction 1 as [i Hm | i i' _ IH Hs]; [by apply reach_mount|].
  eapply reach_step; [exact IH|].
  destruct Hs as [i i' k e He Hh | i i' p Hr | i w];
    [eapply step_event; [eapply Hok, He | exact Hh] | eapply step_props, Hr | apply step_env].
Qed.

Lemma reachable_in_dom p0 w0 (i : Instance C M) :
  reachable p0 w0 i -> reachable_in (fun _ _ e => dom_event_ok e) p0 w0 i.
Proof.
  induction 1 as [i Hm | i i' _ IH Hs]; [by apply reach_in_mount|].
  eapply reach_in_step; [exact IH|].
  destruct Hs as [i i' k e He Hh | i i' p Hr | i w];
    [eapply step_in_event; [exact He | exact Hh] | eapply step_in_props, Hr | apply step_in_env].
Qed.
End Bridges.

Abbreviation browser_reachable := (reachable_in browser_event).

(** ** Attributes of the page *)

(** The values the tree gives to attribute [key], in document order:
    an element's own attributes and the properties a component passes on
    to the element it renders ([document.querySelectorAll("[key]")]). *)
Fixpoint attr_values {M} (key : string) (h : html M) : list string :=
  match h with
  | VText _ | VChildren _ => []
  | VTag _ attrs _ cs => option_list (attr_value key attrs) ++ concat (map (attr_values key) cs)
  | VComp _ ps _ hp cs =>
      option_list (attr_value key ps) ++ concat (map (fun p => attr_values key p.2) hp) ++
      concat (map (attr_values key) cs)
  | VList cs => concat (map (attr_values key) cs)
  end.
