(* ===== verification/FormPage.v ===== *)
(** * The [FormPage] demo component ([src/crate/src/page/form_pages.rs])

    The state is the record [FormPage] (the component link is the
    runtime's handle and is not state); [Msg] has the source's three
    variants; [create], [update], [change] and [view] are the methods of
    [impl Component for FormPage]; [get_form_inputs] and [get_select_form]
    are the two view helpers, with the closures they pass to
    [link.callback] as [on_input], [on_select_change] and
    [on_multiple_change] (the loop over the option collection is
    [collect_selected]).  The theorems give [update] on every branch, the
    loop's equivalence with the reference "values of the selected options,
    in order", the rendered page, and the runtime safety of every state
    reachable from [create]. *)

From stdpp Require Import base list strings.
From Stdlib Require Import Lia.
From S2P Require Import Prelude Styles Html Fmt Yew Scheduler.

Module FormPage.

(** ** State and messages *)

Record FormPage := mk_form_page {
  value : list string;
  multiple_values : list string;
}.

Inductive Msg :=
| Input (v : string) (index : nat)
| Select (v : string) (index : nat)
| MultipleSelect (values : list string).

(** ** Lifecycle *)

(** [vec!["".to_string(); 50]] and [vec![]]. *)
Definition create (_ : unit) : FormPage :=
  mk_form_page (replicate 50 "") [].

Definition update (self : FormPage) (msg : Msg) : outcome (FormPage * bool) :=
  match msg with
  | Input v index =>
      value' <- vec_set (value self) index v;;
      Ret (mk_form_page value' (multiple_values self), true)
  | Select v index =>
      value' <- vec_set (value self) index v;;
      Ret (mk_form_page value' (multiple_values self), true)
  | MultipleSelect values =>
      Ret (mk_form_page (value self) values, true)
  end.

Definition change (self : FormPage) (_ : unit) : FormPage * bool := (self, false).

(** ** Callbacks *)

(** [|e: InputData| Msg::Input(e.value, index)]. *)
Definition on_input (index : nat) (e : InputData) : outcome Msg :=
  Ret (Input (input_value e) index).

(** The single select: [Msg::Select(element.value(), 3)]. *)
Definition on_select_change (e : ChangeData.t) : outcome Msg :=
  match e with
  | ChangeData.Select element =>
      let v := select_value element in
      Ret (Select v 3)
  | _ => unreachable
  end.

(** [for i in 0..options.length() { ... }]: fetch item [i], cast it to an
    option element (both unwrapped), and push its value when selected. *)
Fixpoint collect_selected (opts : HtmlOptionsCollection) (range : list nat)
         (values : list string) : outcome (list string) :=
  match range with
  | [] => Ret values
  | i :: range' =>
      item <- unwrap (get_with_index opts i);;
      option <- unwrap_result (dyn_into_option item);;
      collect_selected opts range'
        (if option_selected option then values ++ [option_value option] else values)
  end.

Definition on_multiple_change (e : ChangeData.t) : outcome Msg :=
  match e with
  | ChangeData.Select element =>
      let opts := options element in
      values <- collect_selected opts (seq 0 (options_length opts)) [];;
      Ret (MultipleSelect values)
  | _ => unreachable
  end.

(** ** View *)

Definition item (layouts : string) (children : list (html Msg)) : html Msg :=
  VComp "Item" [("layouts", layouts)] [] [] children.

Definition input_layouts : string :=
  "vec!(ItemLayout::ItL(4), ItemLayout::ItM(6), ItemLayout::ItXs(12))".

Definition value_div (v : string) : html Msg :=
  VTag "div" [] [] [VText ("Value: " +:+ v)].

Definition get_form_inputs (form_page : FormPage) : outcome (html Msg) :=
  v0 <- vec_index (value form_page) 0;;
  v0' <- vec_index (value form_page) 0;;
  v1 <- vec_index (value form_page) 1;;
  v1' <- vec_index (value form_page) 1;;
  v2 <- vec_index (value form_page) 2;;
  v2' <- vec_index (value form_page) 2;;
  Ret (VComp "Container" [("wrap", "Wrap::Wrap"); ("direction", "Direction::Row")] [] [] [
    item input_layouts [
      VComp "FormGroup" [("orientation", "Orientation::Horizontal")] [] [] [
        VComp "FormLabel" [("text", "standard input")] [] [] [];
        VComp "FormInput"
          [("input_type", "InputType::Text"); ("value", v0);
           ("input_style", "Palette::Standard"); ("input_size", "Size::Medium");
           ("id", "form-input-test"); ("placeholder", "test"); ("underline", "false")]
          [("oninput_signal", OnInput (on_input 0))] [] [];
        value_div v0']];
    item input_layouts [
      VComp "FormGroup" [("orientation", "Orientation::Horizontal")] [] [] [
        VComp "FormLabel" [("text", "underline input")] [] [] [];
        VComp "FormInput"
          [("input_type", "InputType::Text"); ("value", v1);
           ("input_style", "Palette::Standard"); ("id", "form-input-test");
           ("placeholder", "test"); ("underline", "true")]
          [("oninput_signal", OnInput (on_input 1))] [] [];
        value_div v1']];
    item input_layouts [
      VComp "FormGroup" [("orientation", "Orientation::Horizontal")] [] [] [
        VComp "FormLabel" [("text", "Success input type")] [] [] [];
        VComp "FormInput"
          [("input_type", "InputType::Text"); ("value", v2);
           ("input_style", "Palette::Success"); ("input_size", "Size::Medium");
           ("id", "form-input-test"); ("placeholder", "test"); ("underline", "false")]
          [("oninput_signal", OnInput (on_input 2))] [] [];
        value_div v2']]]).

(** The four options both selects offer, after a disabled placeholder. *)
Definition library_options (placeholder : string) : html Msg :=
  VList [
    VTag "option" [("value", ""); ("disabled", "true")] [] [VText placeholder];
    VTag "option" [("value", "yew")] [] [VText "Yew"];
    VTag "option" [("value", "yew_styles")] [] [VText "Yew Styles"];
    VTag "option" [("value", "yew_prism")] [] [VText "Yew prism"]].

Definition select_layouts : string := "vec!(ItemLayout::ItM(6), ItemLayout::ItXs(12))".

Definition get_select_form (form_page : FormPage) : outcome (html Msg) :=
  v3 <- vec_index (value form_page) 3;;
  Ret (VComp "Container" [("wrap", "Wrap::Wrap"); ("direction", "Direction::Row")] [] [] [
    item select_layouts [
      VComp "FormGroup" [] [] [] [
        VComp "FormSelect" [("select_size", "Size::Medium")]
          [("on_change_signal", OnChange on_select_change)]
          [("options", library_options "Select library")] [];
        value_div v3]];
    item select_layouts [
      VComp "FormGroup" [] [] [] [
        VComp "FormSelect" [("select_size", "Size::Medium"); ("multiple", "true")]
          [("on_change_signal", OnChange on_multiple_change)]
          [("options", library_options "Select multiple library")] [];
        VTag "div" [] [] [VText ("Value: " +:+ debug_pretty_vec (multiple_values form_page))]]]]).

Definition view (self : FormPage) : outcome (html Msg) :=
  inputs <- get_form_inputs self;;
  selects <- get_select_form self;;
  Ret (VList [
    item "vec!(ItemLayout::ItXs(12))" [VTag "h1" [] [] [VText "Form Component"]];
    item "vec!(ItemLayout::ItXs(12))" [VTag "h2" [] [] [VText "Form input types"]];
    inputs;
    selects]).

(** ** The [Component] instance *)

#[export] Instance FormPage_component : Component FormPage unit Msg := {
  c_create := create;
  c_mounted := default_mounted;
  c_update := fun s m w => r <- update s m;; Ret (r.1, r.2, w);
  c_change := fun s p w => Ret ((change s p).1, (change s p).2, w);
  c_view := view;
}.

(** ** Reference for the multiple-select loop *)

Definition as_option (e : Element) : option HtmlOptionElement :=
  match e with HtmlOption o => Some o | OtherElement _ => None end.

(** The values of the selected options, in collection order. *)
Definition selected_values (opts : HtmlOptionsCollection) : list string :=
  option_value <$> filter (fun o => option_selected o = true) (omap as_option opts).

(** A message the page's callbacks can build: slot indices below 4. *)
Definition msg_in_range (m : Msg) : Prop :=
  match m with
  | Input _ i | Select _ i => i < 4
  | MultipleSelect _ => True
  end.

(** The listeners of the rendered page, in document order. *)
Definition page_listeners : list (listener Msg) :=
  [OnInput (on_input 0); OnInput (on_input 1); OnInput (on_input 2);
   OnChange on_select_change; OnChange on_multiple_change].

(** ** [update] *)

Section Update.
Implicit Types (s : FormPage) (m : Msg).

(** The reference fold of spec 8: each message overwrites the slice it
    names. *)
Definition apply_msg (s : FormPage) (m : Msg) : FormPage :=
  match m with
  | Input x i | Select x i => mk_form_page (<[i:=x]> (value s)) (multiple_values s)
  | MultipleSelect vs => mk_form_page (value s) vs
  end.

Lemma apply_msg_length s m : length (value (apply_msg s m)) = length (value s).
Proof. destruct m; simpl; rewrite ?length_insert; done. Qed.

(** Every [update] that returns is the reference [apply_msg] and asks to
    re-render. *)
Lemma update_ret_apply s m r : update s m = Ret r -> r = (apply_msg s m, true).
Proof.
  destruct m as [v i|v i|vs]; simpl; [| |by intros [= <-]];
    intros (v' & Hset & [= <-])%obind_ret_inv; unfold vec_set in Hset;
    case_decide; by simplify_eq.
Qed.

Lemma update_slot s v i value' :
  vec_set (value s) i v = Ret value' ->
  update s (Input v i) = Ret (mk_form_page value' (multiple_values s), true) /\
  update s (Select v i) = Ret (mk_form_page value' (multiple_values s), true).
Proof. intros H. simpl. by rewrite H. Qed.

(** C1. An [Input] or [Select] message whose index is inside the vector
    writes its value into that slot, leaves every other slot and the
    multiple-select values as they were, keeps the length, and asks to
    re-render. *)
Theorem update_writes_slot s v i m :
  i < length (value s) -> m = Input v i \/ m = Select v i ->
  exists s', update s m = Ret (s', true) /\
    value s' !! i = Some v /\
    (forall j, j <> i -> value s' !! j = value s !! j) /\
    length (value s') = length (value s) /\
    multiple_values s' = multiple_values s.
Proof.
  intros Hi Hm. pose proof (vec_set_lt (value s) i v Hi) as Hset.
  destruct (update_slot _ _ _ _ Hset) as [HI HS].
  destruct (vec_set_frame _ _ _ _ Hset) as (Hget & Hother & Hlen).
  exists (mk_form_page (<[i:=v]> (value s)) (multiple_values s)).
  destruct Hm as [-> | ->]; auto.
Qed.

(** C7. An [Input] or [Select] message whose index is past the end of
    the vector panics with Rust's index-out-of-bounds message. *)
Theorem update_index_out_of_range s v i :
  length (value s) <= i ->
  update s (Input v i) = Panic (index_oob_msg (length (value s)) i) /\
  update s (Select v i) = Panic (index_oob_msg (length (value s)) i).
Proof. intros Hi. simpl. by rewrite vec_set_ge. Qed.

(** C10. Every update that returns keeps the number of slots and asks to
    re-render. *)
Theorem update_keeps_length s m s' b :
  update s m = Ret (s', b) -> length (value s') = length (value s) /\ b = true.
Proof. intros [= -> ->]%update_ret_apply. by rewrite apply_msg_length. Qed.

Lemma update_writes_slot_witness :
  0 < length (value (create tt)) /\ Input "test" 0 = Input "test" 0 /\
  exists s', update (create tt) (Input "test" 0) = Ret (s', true) /\
    value s' !! 0 = Some "test" /\
    (forall j, j <> 0 -> value s' !! j = value (create tt) !! j) /\
    length (value s') = length (value (create tt)) /\
    multiple_values s' = multiple_values (create tt).
Proof.
  assert (Hi : 0 < length (value (create tt))) by (simpl; lia).
  split_and!; [exact Hi | reflexivity |].
  apply (update_writes_slot _ "test" 0 (Input "test" 0) Hi). by left.
Defined.

Lemma update_index_out_of_range_witness :
  length (value (create tt)) <= 50 /\
  update (create tt) (Input "test" 50) = Panic (index_oob_msg 50 50) /\
  update (create tt) (Select "test" 50) = Panic (index_oob_msg 50 50).
Proof.
  assert (Hi : length (value (create tt)) <= 50) by (simpl; lia).
  split; [exact Hi | apply (update_index_out_of_range _ "test" 50 Hi)].
Defined.

Lemma update_keeps_length_witness :
  update (create tt) (MultipleSelect ["yew"]) = Ret (mk_form_page (value (create tt)) ["yew"], true) /\
  length (value (mk_form_page (value (create tt)) ["yew"])) = length (value (create tt)) /\ true = true.
Proof.
  assert (Hu : update (create tt) (MultipleSelect ["yew"]) =
               Ret (mk_form_page (value (create tt)) ["yew"], true)) by reflexivity.
  split; [exact Hu | apply (update_keeps_length _ _ _ _ Hu)].
Defined.

Lemma update_in_range s m :
  4 <= length (value s) -> msg_in_range m ->
  exists s', update s m = Ret (s', true) /\ length (value s') = length (value s).
Proof.
  intros Hlen Hm. exists (apply_msg s m). rewrite apply_msg_length.
  destruct m as [v i | v i | vs]; simpl in Hm; simpl; rewrite ?vec_set_lt by lia; done.
Qed.
End Update.

(** ** The multiple-select loop *)

Section Loop.
Context (opts : HtmlOptionsCollection).

Lemma selected_values_cons_option o rest :
  selected_values (HtmlOption o :: rest) =
    (if option_selected o then [option_value o] else []) ++ selected_values rest.
Proof.
  unfold selected_values. simpl. rewrite filter_cons.
  case_decide as Hs; destruct (option_selected o); simpl; done.
Qed.

Lemma collect_selected_suffix n k acc :
  options_well_formed opts -> k + n = length opts ->
  collect_selected opts (seq k n) acc = Ret (acc ++ selected_values (drop k opts)).
Proof.
  intros Hwf. revert k acc. induction n as [|n IH]; intros k acc Hk.
  - simpl. rewrite drop_ge by lia. by rewrite app_nil_r.
  - destruct (lookup_lt_is_Some_2 opts k ltac:(lia)) as [e He].
    pose proof (Forall_lookup_1 _ _ _ _ Hwf He) as Ho.
    destruct e as [o|]; [|discriminate]. simpl.
    unfold get_with_index. rewrite He. simpl.
    rewrite IH by lia. rewrite (drop_S _ _ _ He), selected_values_cons_option.
    destruct (option_selected o); simpl; by rewrite <- ?app_assoc.
Qed.

(** An item that is not an option element, anywhere in the range, stops
    the loop with a panic. *)
Lemma collect_selected_other n k acc j t :
  k <= j < k + n -> k + n <= length opts -> opts !! j = Some (OtherElement t) ->
  is_panic (collect_selected opts (seq k n) acc) = true.
Proof.
  revert k acc. induction n as [|n IH]; intros k acc Hj Hn Ht; [lia|].
  simpl. unfold get_with_index.
  destruct (lookup_lt_is_Some_2 opts k ltac:(lia)) as [e He]. rewrite He.
  destruct e as [o|t']; simpl; [|done].
  assert (j <> k) by congruence. apply IH; [lia | lia | done].
Qed.
End Loop.

(** ** The change callbacks *)

(** C3. On a DOM option collection the multiple-select callback never
    panics and yields the values of the selected options, in collection
    order (the loop over [0..options.length()] equals the reference
    [selected_values]). *)
Theorem on_multiple_change_correct (element : HtmlSelectElement) :
  options_well_formed (select_options element) ->
  on_multiple_change (ChangeData.Select element) =
    Ret (MultipleSelect (selected_values (select_options element))).
Proof.
  intros Hwf. simpl. unfold options, options_length.
  by rewrite (collect_selected_suffix _ _ 0 [] Hwf) by lia.
Qed.

(** The spec's test: flags [false, true, true, false] on the rendered
    options give the values at positions 1 and 2. *)
Lemma on_multiple_change_correct_witness :
  options_well_formed
    (select_options (dom_select (library_options "Select multiple library")
                                [false; true; true; false])) /\
  on_multiple_change
    (ChangeData.Select (dom_select (library_options "Select multiple library")
                                   [false; true; true; false])) =
    Ret (MultipleSelect ["yew"; "yew_styles"]).
Proof.
  split; [apply dom_select_well_formed|].
  rewrite on_multiple_change_correct by apply dom_select_well_formed.
  vm_compute. reflexivity.
Defined.

(** C14. A collection item that is not an option element makes the
    multiple-select callback panic ([dyn_into(..).unwrap()]). *)
Theorem on_multiple_change_non_option (element : HtmlSelectElement) j t :
  select_options element !! j = Some (OtherElement t) ->
  is_panic (on_multiple_change (ChangeData.Select element)) = true.
Proof.
  intros Ht. simpl. unfold options, options_length.
  pose proof (lookup_lt_Some _ _ _ Ht).
  apply is_panic_obind. apply (collect_selected_other _ _ 0 [] j t); [lia | lia | done].
Qed.

Lemma on_multiple_change_non_option_witness :
  select_options (mk_select [HtmlOption (mk_option "yew" true false); OtherElement "hr"]) !! 1 =
    Some (OtherElement "hr") /\
  is_panic (on_multiple_change
              (ChangeData.Select (mk_select [HtmlOption (mk_option "yew" true false);
                                              OtherElement "hr"]))) = true.
Proof.
  assert (Ht : select_options (mk_select [HtmlOption (mk_option "yew" true false); OtherElement "hr"]) !! 1 =
               Some (OtherElement "hr")) by reflexivity.
  split; [exact Ht | apply (on_multiple_change_non_option _ _ _ Ht)].
Defined.

(** C15. The select callbacks treat a change payload that is not a select
    element as unreachable: they panic. *)
Theorem select_callbacks_unreachable (d : ChangeData.t) :
  (forall element, d <> ChangeData.Select element) ->
  on_select_change d = unreachable /\ on_multiple_change d = unreachable.
Proof. intros Hd. destruct d as [s|element|fs]; [done| |done]. by destruct (Hd element). Qed.

Lemma select_callbacks_unreachable_witness :
  (forall element, ChangeData.Value "yew" <> ChangeData.Select element) /\
  on_select_change (ChangeData.Value "yew") = unreachable /\
  on_multiple_change (ChangeData.Value "yew") = unreachable.
Proof.
  assert (H : forall element, ChangeData.Value "yew" <> ChangeData.Select element)
    by (intros ? ?; discriminate).
  split; [exact H | apply (select_callbacks_unreachable _ H)].
Defined.

(** ** The rendered page *)

Lemma view_page s :
  4 <= length (value s) -> exists h, view s = Ret h /\ listeners_of h = page_listeners.
Proof.
  destruct s as [[|v0 [|v1 [|v2 [|v3 rest]]]] mv]; simpl; intros; try lia.
  by eexists.
Qed.

(** C12. With at least four slots the page renders; its text shows slots
    0 to 3 and the debug form of the multiple-select values under the
    headings and option labels, and its listeners are the three input
    callbacks and the two select callbacks, in document order. *)
Theorem view_renders s v0 v1 v2 v3 rest :
  value s = v0 :: v1 :: v2 :: v3 :: rest ->
  exists h, view s = Ret h /\
    texts_of h =
      ["Form Component"; "Form input types";
       "Value: " +:+ v0; "Value: " +:+ v1; "Value: " +:+ v2;
       "Select library"; "Yew"; "Yew Styles"; "Yew prism"; "Value: " +:+ v3;
       "Select multiple library"; "Yew"; "Yew Styles"; "Yew prism";
       "Value: " +:+ debug_pretty_vec (multiple_values s)] /\
    listeners_of h = page_listeners.
Proof. destruct s as [vs mv]; simpl; intros ->. by eexists. Qed.

Lemma view_renders_witness :
  value (create tt) = "" :: "" :: "" :: "" :: replicate 46 "" /\
  exists h, view (create tt) = Ret h /\
    texts_of h =
      ["Form Component"; "Form input types";
       "Value: " +:+ ""; "Value: " +:+ ""; "Value: " +:+ "";
       "Select library"; "Yew"; "Yew Styles"; "Yew prism"; "Value: " +:+ "";
       "Select multiple library"; "Yew"; "Yew Styles"; "Yew prism";
       "Value: " +:+ debug_pretty_vec (multiple_values (create tt))] /\
    listeners_of h = page_listeners.
Proof. split; [reflexivity | apply (view_renders _ "" "" "" "" (replicate 46 "")); reflexivity]. Defined.

(** C13. With fewer than four slots rendering panics, at the first index
    past the end. *)
Theorem view_short_panics s :
  length (value s) < 4 ->
  view s = Panic (index_oob_msg (length (value s)) (length (value s))).
Proof. destruct s as [[|v0 [|v1 [|v2 [|v3 rest]]]] mv]; simpl; intros; (lia || done). Qed.

Lemma view_short_panics_witness :
  length (value (mk_form_page ["a"] [])) < 4 /\
  view (mk_form_page ["a"] []) = Panic (index_oob_msg 1 1).
Proof. split; [simpl; lia | apply (view_short_panics (mk_form_page ["a"] [])); simpl; lia]. Defined.

(** ** The runtime contract *)

#[export] Instance FormPage_render_laws : RenderLaws FormPage unit Msg.
Proof.
  split; simpl.
  - intros c w c' w' H. by injection H as -> _.
  - intros c m w c' w' (r & Hu & Hr)%obind_ret_inv. destruct r as [s' b].
    injection Hr as -> Hb ->. by apply update_ret_apply in Hu as [= _ ->].
  - intros c p w c' w' H. by injection H as -> _.
Qed.

Lemma page_listener_ok l e r :
  l ∈ page_listeners -> dom_event_ok e -> fire l e = Some r ->
  exists m, r = Ret m /\ msg_in_range m.
Proof.
  unfold page_listeners. intros Hl He Hf.
  repeat (apply elem_of_cons in Hl as [->|Hl]); [| | | | | by apply elem_of_nil in Hl];
    destruct e as [d|[s|element|fs]|me]; cbn [fire dom_event_ok] in Hf, He;
    simplify_eq; try done; try (eexists; split; [reflexivity | simpl; lia]).
  cbn [on_multiple_change]. unfold options, options_length.
  rewrite (collect_selected_suffix _ _ 0 [] He) by lia. eexists; split; [reflexivity | done].
Qed.

Lemma reachable_state w0 (i : Instance FormPage Msg) :
  reachable tt w0 i -> length (value (inst_state i)) = 50.
Proof.
  induction 1 as [i Hm | i i' _ IH Hs].
  - unfold mount in Hm. simpl in Hm. injection Hm as <-. reflexivity.
  - destruct Hs as [i i' k e _ Hh | i i' p Hr | i w]; [| |exact IH].
    + destruct (handle_event_ret _ _ _ _ Hh) as (m & _ & Hd).
      destruct (commit_state _ _ _ Hd) as [b Hu]. simpl in Hu.
      apply obind_ret_inv in Hu as ([s' b'] & Hu & Hr). simplify_eq.
      apply update_ret_apply in Hu as [= -> _]. by rewrite apply_msg_length.
    + destruct (commit_state _ _ _ Hr) as [b Hc]. simpl in Hc. simplify_eq.
      by rewrite <- Hc.
Qed.

(** Every reachable state handles every event the DOM can build without
    panicking. *)
Lemma reachable_no_panic w0 (i : Instance FormPage Msg) :
  reachable tt w0 i ->
  forall k e r, dom_event_ok e -> handle_event i k e = Some r -> is_panic r = false.
Proof.
  intros Hr. pose proof (reachable_state _ _ Hr) as Hlen.
  pose proof (render_consistent _ _ _ Hr) as Hv. simpl in Hv.
  intros k e r He (r0 & Hf & ->)%handle_event_some.
  destruct (listeners_of_elem _ _ _ _ Hf) as (l & Hl & Hfl).
  destruct (view_page (inst_state i) ltac:(lia)) as (h & Hv' & Hls).
  rewrite Hv in Hv'. injection Hv' as Hdom. rewrite <- Hdom in Hls. rewrite Hls in Hl.
  destruct (page_listener_ok _ _ _ Hl He Hfl) as (m & -> & Hm).
  destruct (update_in_range (inst_state i) m ltac:(lia) Hm) as (s' & Hu & Hl').
  destruct (view_page s' ltac:(lia)) as (h' & Hv'' & _).
  unfold dispatch. simpl. rewrite Hu. simpl. by rewrite Hv''.
Qed.

(** C2. Safety of the page: in every state the runtime reaches from
    [create], through browser events on the rendered page, new
    configurations and other components' writes to the shared world, the
    page keeps its 50 slots, shows the view of its state, and handles
    every event the browser can deliver without panicking. *)
Theorem form_page_reachable_safe w0 (i : Instance FormPage Msg) :
  reachable tt w0 i ->
  length (value (inst_state i)) = 50 /\
  view (inst_state i) = Ret (inst_dom i) /\
  forall k e r, dom_event_ok e -> handle_event i k e = Some r -> is_panic r = false.
Proof.
  intros Hr. split_and!; [by eapply reachable_state | | by eapply reachable_no_panic].
  pose proof (render_consistent _ _ _ Hr) as Hv. by simpl in Hv.
Qed.

Lemma form_page_reachable_safe_witness :
  exists i : Instance FormPage Msg,
    reachable tt empty_world i /\ length (value (inst_state i)) = 50.
Proof.
  eexists. split; [apply reach_mount; reflexivity|].
  apply (form_page_reachable_safe empty_world). apply reach_mount. reflexivity.
Defined.

(** C19. The rendered page shows its state faithfully: two states whose
    pages render with the same text agree on slots 0 to 3 and on the
    multiple-select values (the [{:#?}] text reads back to the vector). *)
Theorem view_text_determines_state s1 s2 h1 h2 :
  view s1 = Ret h1 -> view s2 = Ret h2 -> texts_of h1 = texts_of h2 ->
  take 4 (value s1) = take 4 (value s2) /\ multiple_values s1 = multiple_values s2.
Proof.
  intros H1 H2 Ht.
  destruct s1 as [[|a0 [|a1 [|a2 [|a3 r1]]]] m1]; cbn in H1; simplify_eq.
  destruct s2 as [[|b0 [|b1 [|b2 [|b3 r2]]]] m2]; cbn in H2; simplify_eq.
  simpl in *.
  repeat match goal with H : debug_pretty_vec _ = debug_pretty_vec _ |- _ =>
    apply debug_pretty_vec_inj in H end.
  by subst.
Qed.

Lemma view_text_determines_state_witness :
  exists h, view (create tt) = Ret h /\
    take 4 (value (create tt)) = take 4 (value (create tt)) /\
    multiple_values (create tt) = multiple_values (create tt).
Proof.
  eexists. split; [reflexivity|].
  eapply (view_text_determines_state (create tt) (create tt)); reflexivity.
Defined.

(** ** Sequences of messages *)

(** A message whose slot index, if any, is below [n]. *)
Definition msg_fits (n : nat) (m : Msg) : Prop :=
  match m with
  | Input _ i | Select _ i => i < n
  | MultipleSelect _ => True
  end.


(** The last value written to slot [j] by the messages, or [d]. *)
Definition last_write (j : nat) (ms : list Msg) (d : option string) : option string :=
  foldl (fun acc m => match m with
                      | Input x i | Select x i => if decide (i = j) then Some x else acc
                      | MultipleSelect _ => acc
                      end) d ms.

Lemma update_apply_msg s m :
  msg_fits (length (value s)) m -> update s m = Ret (apply_msg s m, true).
Proof. destruct m as [x i|x i|vs]; simpl; intros; rewrite ?vec_set_lt; done. Qed.


Lemma dispatch_apply_msg (i : Instance FormPage Msg) m :
  4 <= length (value (inst_state i)) -> msg_fits (length (value (inst_state i))) m ->
  exists i', dispatch i m = Ret i' /\ inst_state i' = apply_msg (inst_state i) m /\
             inst_world i' = inst_world i.
Proof.
  intros H4 Hm. unfold dispatch. simpl. rewrite update_apply_msg by done. simpl.
  destruct (view_page (apply_msg (inst_state i) m)) as (h & -> & _);
    [by rewrite apply_msg_length|].
  by eexists.
Qed.

Lemma dispatch_all_apply (i : Instance FormPage Msg) ms :
  4 <= length (value (inst_state i)) ->
  Forall (msg_fits (length (value (inst_state i)))) ms ->
  exists i', dispatch_all i ms = Ret i' /\ inst_state i' = foldl apply_msg (inst_state i) ms.
Proof.
  revert i. induction ms as [|m ms IH]; intros i H4 Hms; simpl; [by eexists|].
  apply Forall_cons in Hms as [Hm Hms].
  destruct (dispatch_apply_msg i m H4 Hm) as (i1 & -> & Hs & _). simpl.
  rewrite <- Hs. apply IH; rewrite Hs, apply_msg_length; done.
Qed.

Lemma apply_msgs_slot s ms j :
  Forall (msg_fits (length (value s))) ms ->
  value (foldl apply_msg s ms) !! j = last_write j ms (value s !! j).
Proof.
  unfold last_write. revert s. induction ms as [|m ms IH]; intros s Hms; simpl; [done|].
  apply Forall_cons in Hms as [Hm Hms].
  rewrite IH by (by rewrite apply_msg_length). f_equal.
  destruct m as [x i|x i|vs]; simpl in *; try done;
    (case_decide; [subst; by apply list_lookup_insert_eq | by apply list_lookup_insert_ne]).
Qed.

(** C20. The scheduler drains every queue of messages whose indices fit
    the vector: with fuel one more than the queue's length it finishes,
    the state is the reference fold of the messages, and each slot holds
    the last value written to it, or its old value when none was. *)
Theorem scheduler_drains_queue (i : Instance FormPage Msg) q :
  4 <= length (value (inst_state i)) ->
  Forall (msg_fits (length (value (inst_state i)))) q ->
  exists i', run (S (length q)) (mk_scheduler i q) = Some (Ret i') /\
    inst_state i' = foldl apply_msg (inst_state i) q /\
    forall j, value (inst_state i') !! j = last_write j q (value (inst_state i) !! j).
Proof.
  intros H4 Hq. destruct (dispatch_all_apply i q H4 Hq) as (i' & Hd & Hs).
  exists i'. rewrite run_dispatch_all by lia. rewrite Hd, Hs.
  split_and!; [done | done |]. intros j. by apply apply_msgs_slot.
Qed.

Lemma scheduler_drains_queue_witness :
  exists i : Instance FormPage Msg, mount tt empty_world = Ret i /\
    4 <= length (value (inst_state i)) /\
    Forall (msg_fits (length (value (inst_state i)))) [Input "a" 0; Select "yew" 3; Input "b" 0] /\
    exists i', run 4 (mk_scheduler i [Input "a" 0; Select "yew" 3; Input "b" 0]) = Some (Ret i') /\
      inst_state i' = foldl apply_msg (inst_state i) [Input "a" 0; Select "yew" 3; Input "b" 0] /\
      forall j, value (inst_state i') !! j =
        last_write j [Input "a" 0; Select "yew" 3; Input "b" 0] (value (inst_state i) !! j).
Proof.
  eexists. split; [reflexivity|].
  split_and!; [simpl; lia | repeat constructor; simpl; lia |].
  apply scheduler_drains_queue; [simpl; lia | repeat constructor; simpl; lia].
Defined.

(** ** Progress *)

(** An event each listener of the page accepts. *)
Definition event_for (k : nat) : event :=
  if decide (k < 3) then EvInput (mk_input_data "")
  else EvChange (ChangeData.Select (mk_select [])).

(** C21. The page never gets stuck: in every reachable state each of the
    five listeners of the rendered page accepts a browser event and the
    runtime handles it, reaching a new state. *)
Theorem form_page_progress w0 (i : Instance FormPage Msg) k :
  reachable tt w0 i -> k < 5 ->
  exists i', dom_event_ok (event_for k) /\ handle_event i k (event_for k) = Some (Ret i') /\
             step i i'.
Proof.
  intros Hr Hk. pose proof (reachable_state _ _ Hr) as Hlen.
  pose proof (render_consistent _ _ _ Hr) as Hv. simpl in Hv.
  pose proof (reachable_no_panic _ _ Hr) as Hsafe.
  destruct (view_page (inst_state i) ltac:(lia)) as (h & Hv' & Hls).
  rewrite Hv in Hv'. injection Hv' as Hdom.
  assert (Hok : dom_event_ok (event_for k)).
  { unfold event_for. case_decide; simpl; [done | constructor]. }
  assert (Hsome : exists r, handle_event i k (event_for k) = Some r).
  { unfold handle_event, fire_at. rewrite Hdom, Hls.
    destruct k as [|[|[|[|[|k]]]]]; try lia; by eexists. }
  destruct Hsome as [[i'|s] Hh]; [| by pose proof (Hsafe _ _ _ Hok Hh)].
  exists i'. split_and!; [done | done |]. by eapply step_event.
Qed.

Lemma form_page_progress_witness :
  exists i : Instance FormPage Msg, reachable tt empty_world i /\ 3 < 5 /\
    exists i', dom_event_ok (event_for 3) /\ handle_event i 3 (event_for 3) = Some (Ret i') /\
               step i i'.
Proof.
  assert (Hr : reachable tt empty_world
                 (match mount tt empty_world with Ret i => i | Panic _ => mk_instance (create tt) empty_world (VList []) end))
    by (apply reach_mount; reflexivity).
  eexists. split; [exact Hr|]. split; [lia|].
  exact (form_page_progress _ _ 3 Hr ltac:(lia)).
Defined.

End FormPage.
