(* ===== verification/FormPageBrowser.v ===== *)
(** * The form page under the browser

    Invariants of the [FormPage] states the runtime reaches, proved once
    for any set of admissible events ([form_page_invariant]) and used
    twice: under every event the DOM can build, the slots the view never
    addresses stay blank; under the events the browser delivers
    ([Browser.browser_event]), the single select only ever stores the
    value of one of its options and the multiple select an ordered choice
    of its enabled options. *)

From stdpp Require Import base list strings sets.
From S2P Require Import Prelude Html Yew Browser FormPage.
Import FormPage.

(** ** The listeners' nodes *)

(** The page's listeners with the option tags of their nodes: the inputs
    have none, each select its own four. *)
Definition page_sites : list (listener Msg * list (list (string * string))) :=
  [(OnInput (on_input 0), []); (OnInput (on_input 1), []); (OnInput (on_input 2), []);
   (OnChange on_select_change, option_tags (library_options "Select library"));
   (OnChange on_multiple_change, option_tags (library_options "Select multiple library"))].

Lemma view_sites s :
  4 <= length (value s) -> exists h, view s = Ret h /\ listener_sites h = page_sites.
Proof.
  destruct s as [[|v0 [|v1 [|v2 [|v3 rest]]]] mv]; simpl; intros; try lia.
  by eexists.
Qed.

(** ** Invariants of every run *)

Lemma msg_in_range_fits m : msg_in_range m -> msg_fits 50 m.
Proof. destruct m; simpl; lia. Qed.

(** A property of the state that holds after [create] and that every
    message a listener of the rendered page builds from an admissible
    event preserves holds in every state reached over those events. *)
Lemma form_page_invariant (ok : html Msg -> nat -> event -> Prop) (Inv : FormPage -> Prop) :
  (forall h k e, ok h k e -> dom_event_ok e) ->
  Inv (create tt) ->
  (forall s h k e m, length (value s) = 50 -> view s = Ret h -> Inv s -> ok h k e ->
     fire_at h k e = Some (Ret m) -> msg_in_range m -> Inv (apply_msg s m)) ->
  forall w0 (i : Instance FormPage Msg), reachable_in ok tt w0 i -> Inv (inst_state i).
Proof.
  intros Hok Hcreate Hpres w0 i Hr.
  induction Hr as [i Hm | i i' Hr IH Hs].
  { unfold mount in Hm. simpl in Hm. by injection Hm as <-. }
  pose proof (reachable_in_reachable _ _ _ _ Hok Hr) as Hr'.
  pose proof (reachable_state _ _ Hr') as Hlen.
  pose proof (render_consistent _ _ _ Hr') as Hv. simpl in Hv.
  destruct Hs as [i i' k e He Hh | i i' p Hc | i w]; [| |exact IH].
  - destruct (handle_event_ret _ _ _ _ Hh) as (m & Hf & Hd).
    destruct (listeners_of_elem _ _ _ _ Hf) as (l & Hl & Hfl).
    destruct (view_page (inst_state i) ltac:(lia)) as (h & Hv' & Hls).
    rewrite Hv in Hv'. injection Hv' as <-. rewrite Hls in Hl.
    destruct (page_listener_ok _ _ _ Hl (Hok _ _ _ He) Hfl) as (m' & [= <-] & Hm).
    destruct (dispatch_apply_msg i m ltac:(lia) ltac:(rewrite Hlen; by apply msg_in_range_fits))
      as (i2 & Hd2 & Hs2 & _).
    rewrite Hd in Hd2. injection Hd2 as ->. rewrite Hs2.
    by apply (Hpres _ (inst_dom i) k e).
  - destruct (commit_state _ _ _ Hc) as [b Hc']. simpl in Hc'. simplify_eq.
    by rewrite <- Hc'.
Qed.

(** ** Slots the view never addresses *)

(** C27. The view only ever builds messages for slots 0 to 3: in every
    state the runtime reaches from [create], through any events the DOM
    can build, new configurations and foreign writes to the world, slots
    4 to 49 still hold the empty string [vec!["".to_string(); 50]] put
    there. *)
Theorem unused_slots_stay_blank w0 (i : Instance FormPage Msg) :
  reachable tt w0 i -> forall j, 4 <= j < 50 -> value (inst_state i) !! j = Some "".
Proof.
  intros Hr. apply reachable_in_dom in Hr. revert Hr.
  apply (form_page_invariant _ (fun s => forall j, 4 <= j < 50 -> value s !! j = Some "")
           (fun _ _ _ He => He)).
  - intros j Hj. apply lookup_replicate_2. lia.
  - intros s h k e m _ _ Hinv _ _ Hm j Hj.
    destruct m as [x n|x n|vs]; simpl in *; [| |by apply Hinv];
      rewrite list_lookup_insert_ne by lia; by apply Hinv.
Qed.

Lemma unused_slots_stay_blank_witness :
  exists i : Instance FormPage Msg, reachable tt empty_world i /\ 4 <= 10 < 50 /\
    value (inst_state i) !! 10 = Some "".
Proof.
  assert (Hr : reachable tt empty_world
                 (match mount tt empty_world with Ret i => i | Panic _ => mk_instance (create tt) empty_world (VList []) end))
    by (apply reach_mount; reflexivity).
  eexists. split; [exact Hr|]. split; [lia|].
  exact (unused_slots_stay_blank _ _ Hr 10 ltac:(lia)).
Defined.

(** ** What the selects store *)

(** The value an [<option>] tag gives its option element, and whether the
    user can select it. *)
Definition tag_value (attrs : list (string * string)) : string :=
  default "" (attr_value "value" attrs).

Definition tag_enabled (attrs : list (string * string)) : bool :=
  negb (bool_decide (attr_value "disabled" attrs = Some "true")).

(** [HtmlSelectElement::value] of a select built from option tags is the
    value of one of them, or empty. *)
Lemma first_selected_value_dom tags sel :
  first_selected_value (zip_with dom_option tags sel) ∈ "" :: map tag_value tags.
Proof.
  revert sel. induction tags as [|a tags IH]; intros [|b sel]; simpl; try by left.
  destruct b; [by right; left|].
  destruct (proj1 (elem_of_cons _ _ _) (IH sel)) as [->|Hin]; [by left | by right; right].
Qed.

(** The selected values of such a select, under a selection the user can
    make, are an ordered choice of the enabled options' values. *)
Lemma selected_values_dom tags sel :
  selection_ok (zip_with dom_option tags sel) = true ->
  selected_values (zip_with dom_option tags sel) `sublist_of`
    map tag_value (filter (fun a => tag_enabled a = true) tags).
Proof.
  revert sel. induction tags as [|a tags IH]; intros [|b sel] Hok;
    [done | done | apply sublist_nil_l |].
  cbn [zip_with] in *. unfold dom_option at 1 in Hok. unfold dom_option at 1.
  cbn [selection_ok forallb option_selected option_disabled] in Hok.
  apply andb_true_iff in Hok as [Hab Hok].
  rewrite selected_values_cons_option, filter_cons. cbn [option_selected option_value].
  unfold tag_enabled. case_decide as He; destruct b; simpl in *;
    try (apply sublist_skip || apply sublist_cons); try by apply IH.
  all: congruence.
Qed.

(** C28. Under the events the browser delivers, the selects only store
    what they offer: in every reachable state slot 3 holds the empty
    string or the value of one of the single select's options, and the
    multiple-select values are the enabled options' values in the order
    of the list, each at most once: never the disabled placeholder. *)
Theorem selects_store_offered_values w0 (i : Instance FormPage Msg) :
  browser_reachable tt w0 i ->
  (exists v, value (inst_state i) !! 3 = Some v /\ v ∈ ["yew"; "yew_styles"; "yew_prism"; ""]) /\
  multiple_values (inst_state i) `sublist_of` ["yew"; "yew_styles"; "yew_prism"].
Proof.
  apply (form_page_invariant _
    (fun s => (exists v, value s !! 3 = Some v /\ v ∈ ["yew"; "yew_styles"; "yew_prism"; ""]) /\
              multiple_values s `sublist_of` ["yew"; "yew_styles"; "yew_prism"]) browser_event_ok).
  { split; [eexists; split; [reflexivity | set_solver] | apply sublist_nil_l]. }
  intros s h k e m Hlen Hv [(v & Hv3 & Hin) Hsub] Hb Hf _.
  destruct (view_sites s ltac:(lia)) as (h' & Hv' & Hsites).
  rewrite Hv in Hv'. injection Hv' as <-.
  unfold fire_at in Hf. rewrite <- listener_sites_fst, Hsites in Hf.
  destruct k as [|[|[|[|[|k]]]]]; simpl in Hf; try discriminate;
    destruct e as [d|d|me]; simpl in Hf; try discriminate;
    [injection Hf as <-; simpl; rewrite list_lookup_insert_ne by lia; eauto..| |].
  - destruct d as [?|el|?]; [done| |done]. injection Hf as <-.
    destruct Hb as (tags & sel & Htags & _ & Hel & _). rewrite Hsites in Htags.
    injection Htags as <-. simpl. rewrite list_lookup_insert_eq by lia.
    split; [|done]. eexists; split; [reflexivity|].
    pose proof (first_selected_value_dom (option_tags (library_options "Select library")) sel) as H.
    change (map tag_value (option_tags (library_options "Select library")))
      with ["";"yew"; "yew_styles"; "yew_prism"] in H.
    unfold select_value. rewrite Hel. set_solver.
  - destruct d as [?|el|?]; [done| |done].
    destruct Hb as (tags & sel & Htags & _ & Hel & Hok). rewrite Hsites in Htags.
    injection Htags as <-. injection Hf as Hf. unfold on_multiple_change, options, options_length in Hf.
    rewrite Hel, (collect_selected_suffix _ _ 0 [] (dom_options_well_formed _ _)) in Hf by lia.
    simpl in Hf. injection Hf as <-. simpl. split; [eauto|].
    change ["yew"; "yew_styles"; "yew_prism"] with
      (map tag_value (filter (fun a => tag_enabled a = true)
                             (option_tags (library_options "Select multiple library")))).
    rewrite Hel in Hok.
    exact (selected_values_dom (option_tags (library_options "Select multiple library")) sel Hok).
Qed.

(** The page after mounting, and after the user picks the second and the
    fourth option of the multiple select. *)
Definition mounted_page : Instance FormPage Msg :=
  match mount tt empty_world with
  | Ret i => i
  | Panic _ => mk_instance (create tt) empty_world (VList [])
  end.

Definition pick_multiple : event :=
  EvChange (ChangeData.Select (mk_select
    (zip_with dom_option (option_tags (library_options "Select multiple library"))
              [false; true; false; true]))).

Definition picked_page : Instance FormPage Msg :=
  match handle_event mounted_page 4 pick_multiple with
  | Some (Ret i) => i
  | _ => mounted_page
  end.

Lemma selects_store_offered_values_witness :
  browser_reachable tt empty_world picked_page /\
  multiple_values (inst_state picked_page) = ["yew"; "yew_prism"] /\
  (exists v, value (inst_state picked_page) !! 3 = Some v /\ v ∈ ["yew"; "yew_styles"; "yew_prism"; ""]) /\
  multiple_values (inst_state picked_page) `sublist_of` ["yew"; "yew_styles"; "yew_prism"].
Proof.
  assert (H0 : browser_reachable tt empty_world mounted_page) by (apply reach_in_mount; reflexivity).
  assert (H1 : browser_reachable tt empty_world picked_page).
  { eapply reach_in_step; [exact H0|]. apply (step_in_event _ _ _ 4 pick_multiple).
    - exists (option_tags (library_options "Select multiple library")), [false; true; false; true].
      split_and!; vm_compute; reflexivity.
    - vm_compute. reflexivity. }
  split; [exact H1|]. split; [vm_compute; reflexivity|].
  exact (selects_store_offered_values _ _ H1).
Defined.

