(* ===== verification/Navbar.v ===== *)
(** * The [Navbar] component
    ([src/crate/yew_styles/src/components/navbar/navbar.rs])

    The configuration [Props] (with its [#[prop_or]] defaults) is converted
    by [From<Props> for NavbarProps] into class-name strings; the state is
    the record [Navbar] (converted configuration and the menu flag).
    [create], [mounted], [update], [change] and [view] are the methods of
    [impl Component for Navbar]; [NavbarModel.init] and [set_fixed] write
    the bar's position into the style side table of [Styles].  The
    theorems give the menu toggle, the table [set_fixed] writes, the
    rendered bars, and what [change] does to the table: it initialises it
    from the configuration it replaces, so the table lags one
    configuration behind. *)

From stdpp Require Import base list strings gmap.
From S2P Require Import Prelude Styles Html ClassNames Yew Scheduler.

#[local] Set Warnings "-clear-no-such-hyp".

Module Navbar.

(** ** Configuration *)

Module Fixed.
Inductive t := None | Top | Bottom.
End Fixed.

#[export] Instance Fixed_eq_dec : EqDecision Fixed.t.
Proof. solve_decision. Defined.

Inductive Msg := TroggleMenu.

Module Props.
Record t := mk {
  navbar_type : Palette;
  navbar_style : Style;
  class_name : string;
  fixed : Fixed.t;
  children : Children;
}.
End Props.

(** The configuration a parent gets when it sets only [children]. *)
Definition default_props (children : Children) : Props.t :=
  Props.mk Standard Regular "" Fixed.Top children.

Module NavbarProps.
Record t := mk {
  navbar_type : string;
  navbar_style : string;
  class_name : string;
  fixed : Fixed.t;
  children : Children;
}.
End NavbarProps.

(** [impl From<Props> for NavbarProps]. *)
Definition from (props : Props.t) : NavbarProps.t :=
  NavbarProps.mk (get_palette (Props.navbar_type props))
                 (get_style (Props.navbar_style props))
                 (Props.class_name props) (Props.fixed props) (Props.children props).

Record Navbar := mk_navbar {
  props : NavbarProps.t;
  display_menu : bool;
}.

(** ** [NavbarModel] *)

(** The value of [position]: [inherit] for a static bar, [fixed]
    otherwise. *)
Definition position_value (fixed : Fixed.t) : string :=
  if decide (fixed = Fixed.None) then "inherit" else "fixed".

(** The offset a fixed bar sets to [0]. *)
Definition offset_side (fixed : Fixed.t) : string :=
  if decide (fixed = Fixed.Top) then "top" else "bottom".

Definition set_fixed (fixed : Fixed.t) (t : StyleTable) : StyleTable :=
  let t1 := create_style "position" (position_value fixed) "navbar" t in
  if decide (fixed <> Fixed.None) then create_style (offset_side fixed) "0" "navbar" t1
  else t1.

Definition init (props : NavbarProps.t) (t : StyleTable) : StyleTable :=
  set_fixed (NavbarProps.fixed props) t.

(** ** Lifecycle *)

Definition create (props : Props.t) : Navbar := mk_navbar (from props) false.

Definition mounted (self : Navbar) (w : World) : Lifecycle Navbar :=
  Ret (self, true, with_styles (init (props self)) w).

(** [self.display_menu = !self.display_menu]. *)
Definition toggled (s : Navbar) : Navbar := mk_navbar (props s) (negb (display_menu s)).

Definition update (self : Navbar) (msg : Msg) : Navbar * bool :=
  match msg with
  | TroggleMenu => (toggled self, true)
  end.

(** [NavbarModel.init(self.props.clone())] runs before [self.props] is
    replaced. *)
Definition change (self : Navbar) (props' : Props.t) (w : World) : Lifecycle Navbar :=
  let w' := with_styles (init (props self)) w in
  Ret (mk_navbar (from props') (display_menu self), true, w').

(** ** View *)

(** [format!("{} {} {}", navbar_style, navbar_type, class_name)]. *)
Definition classes (p : NavbarProps.t) : string :=
  NavbarProps.navbar_style p +:+ " " +:+ NavbarProps.navbar_type p +:+ " " +:+
  NavbarProps.class_name p.

Definition view (self : Navbar) : html Msg :=
  VList [
    VTag "div" [("class", "navbar-mobile " +:+ classes (props self))] [] [
      VComp "NavbarContainer" [("justify_content", "JustifyContent::End(Mode::NoMode)")] [] [] [
        VComp "NavbarItem" [] [("onsignal", OnClick (fun _ => Ret TroggleMenu))] [] [
          VTag "img" [("src", "./assets/menu.svg")] [] []]];
      if display_menu self then VChildren (NavbarProps.children (props self))
      else empty_html];
    VTag "div" [("class", "navbar " +:+ classes (props self))] [] [
      VChildren (NavbarProps.children (props self))]].

#[export] Instance Navbar_component : Component Navbar Props.t Msg := {
  c_create := create;
  c_mounted := mounted;
  c_update := fun s m w => Ret ((update s m).1, (update s m).2, w);
  c_change := change;
  c_view := fun s => Ret (view s);
}.

(** ** Theorems *)

#[export] Instance Children_eq_dec : EqDecision Children.
Proof. solve_decision. Defined.
#[export] Instance NavbarProps_eq_dec : EqDecision NavbarProps.t.
Proof. solve_decision. Defined.


(** C8. Toggling the menu twice gives back the state it started from,
    and each toggle asks to re-render. *)
Theorem toggle_twice (s : Navbar) :
  update s TroggleMenu = (toggled s, true) /\
  update (update s TroggleMenu).1 TroggleMenu = (s, true).
Proof. destruct s as [p []]; split; reflexivity. Qed.

(** Evaluate lookups in a table written by [set_fixed]. *)
Ltac table_simp :=
  unfold set_fixed, create_style, position_value, offset_side; simpl; rewrite ?lookup_insert; repeat case_decide; naive_solver.

Lemma set_fixed_position f t :
  set_fixed f t !! ("navbar", "position") = Some (position_value f).
Proof. destruct f; table_simp. Qed.

Lemma set_fixed_keeps_offset f t side :
  side = "top" \/ side = "bottom" -> t !! ("navbar", side) = Some "0" ->
  set_fixed f t !! ("navbar", side) = Some "0".
Proof. destruct f; table_simp. Qed.

(** C6. The table after [set_fixed]: [position] is [inherit] for a
    static bar and [fixed] otherwise; [top] (for [Top]) or [bottom] (for
    [Bottom]) is set to [0]; every other entry, including the offset of the
    other side, is left as it was. *)
Theorem set_fixed_table (f : Fixed.t) (t : StyleTable) k :
  set_fixed f t !! k =
    if decide (k = ("navbar", "position")) then
      Some (if decide (f = Fixed.None) then "inherit" else "fixed")
    else if decide (k = ("navbar", "top") /\ f = Fixed.Top) then Some "0"
    else if decide (k = ("navbar", "bottom") /\ f = Fixed.Bottom) then Some "0"
    else t !! k.
Proof. destruct f; table_simp. Qed.

Lemma set_fixed_idem f t : set_fixed f (set_fixed f t) = set_fixed f t.
Proof. apply map_eq. intros k. destruct f; table_simp. Qed.

(** C4. [change] initialises the style table from the configuration it
    replaces: after mounting with [p1] and changing to [p2], the table is
    what [set_fixed] writes for [p1]'s position, whatever [p2] says, and
    the state holds [p2] with the menu still closed. *)
Theorem change_uses_replaced_props (p1 p2 : Props.t) (w : World) :
  exists i0 i1,
    mount p1 w = Ret i0 /\ reconfigure i0 p2 = Ret i1 /\
    styles (inst_world i1) = set_fixed (Props.fixed p1) (styles w) /\
    inst_state i1 = create p2.
Proof.
  do 2 eexists. split_and!; [reflexivity | reflexivity | simpl | reflexivity].
  unfold init. simpl. apply set_fixed_idem.
Qed.

(** C9. [set_fixed] never clears an offset: once [top: 0] or [bottom: 0]
    is in the table, every later sequence of [set_fixed] calls leaves it
    there, so a bar moved from the top to the bottom ends with both. *)
Theorem offsets_never_cleared (fs : list Fixed.t) (t : StyleTable) side :
  side = "top" \/ side = "bottom" ->
  t !! ("navbar", side) = Some "0" ->
  foldr set_fixed t fs !! ("navbar", side) = Some "0".
Proof.
  intros Hside Ht. induction fs as [|f fs IH]; [done|]. simpl.
  by apply set_fixed_keeps_offset.
Qed.

Lemma offsets_never_cleared_witness :
  ("top" = "top" \/ "top" = "bottom") /\
  set_fixed Fixed.Top ∅ !! ("navbar", "top") = Some "0" /\
  foldr set_fixed (set_fixed Fixed.Top ∅) [Fixed.Bottom; Fixed.None]
    !! ("navbar", "top") = Some "0".
Proof.
  assert (Hs : "top" = "top" \/ "top" = "bottom") by (left; reflexivity).
  assert (Ht : set_fixed Fixed.Top ∅ !! ("navbar", "top") = Some "0") by reflexivity.
  split_and!; [exact Hs | exact Ht | apply (offsets_never_cleared _ _ _ Hs Ht)].
Defined.

(** C17. The rendered bars: the parent's children appear in the desktop
    bar always and in the mobile bar only while the menu is open; the
    only listener is the menu button, which turns any click into
    [TroggleMenu]; both bars carry the style, palette and custom class. *)
Theorem bars_render (s : Navbar) :
  children_of (view s) =
    (if display_menu s then [NavbarProps.children (props s)] else []) ++
    [NavbarProps.children (props s)] /\
  (exists f, listeners_of (view s) = [OnClick f] /\ forall me, f me = Ret TroggleMenu) /\
  exists divs, view s = VList divs /\
    map (fun h => match h with VTag _ attrs _ _ => attr_value "class" attrs | _ => None end) divs =
      [Some ("navbar-mobile " +:+ classes (props s)); Some ("navbar " +:+ classes (props s))].
Proof.
  destruct s as [p []]; (split; [reflexivity | split]);
    (eexists; split; [reflexivity | done]).
Qed.

(** C18. A click on the menu button of the rendered bar toggles the menu
    and renders the toggled state, leaving the world as it was. *)
Theorem click_toggles (s : Navbar) (w : World) (me : MouseEvent) :
  handle_event (mk_instance s w (view s)) 0 (EvClick me) =
    Some (Ret (mk_instance (toggled s) w (view (toggled s)))).
Proof. by destruct s as [p []]. Qed.

(** C16. The navbar breaks the reconfiguration contract of spec 4.1:
    [change] asks to re-render (and rewrites the style table) even when
    the new configuration converts to the stored one. *)
Theorem breaks_reconfigure_contract :
  ~ reconfigure_contract from props.
Proof.
  intros Hc.
  set (p := default_props (mk_children [])).
  destruct (Hc (create p) p empty_world) as (c' & w' & Hch & _).
  vm_compute in Hch. discriminate.
Qed.

(** ** Class names *)

(** Reading the classes of a bar back: the style and palette variants and
    the parent's custom class. *)
Definition read_classes (s : string) : option (Style * Palette * string) :=
  match read_words 2 s with
  | Some ([st; pl], cn) =>
      style ← of_token get_style st; pal ← of_token get_palette pl; Some (style, pal, cn)
  | _ => None
  end.

(** C26. The classes both bars carry determine the presentation part of
    the parent's configuration: the [format!] string of the converted
    props reads back to the [navbar_style] and [navbar_type] variants, in
    that order, and the custom class name. *)
Theorem classes_roundtrip (p : Props.t) :
  read_classes (classes (from p)) =
    Some (Props.navbar_style p, Props.navbar_type p, Props.class_name p).
Proof.
  pose proof (read_words_join [get_style (Props.navbar_style p); get_palette (Props.navbar_type p)]
    (Props.class_name p)) as Hr.
  cbn [List.length join_words foldr] in Hr. unfold read_classes, classes, from.
  cbn [NavbarProps.navbar_style NavbarProps.navbar_type NavbarProps.class_name].
  rewrite Hr by (repeat constructor; auto with tokens).
  simpl. by rewrite (of_token_inv get_style), (of_token_inv get_palette).
Qed.

End Navbar.
