(* ===== verification/CarouselControls.v ===== *)
(** * The [CarouselControls] component
    ([src/crate/yew_styles/src/components/carousel/carousel_controls.rs])

    The state is the configuration [Props.t] (the component link is the
    runtime's handle); [Msg] carries the clicked mouse event.  [create],
    [update], [change] and [view] are the methods of
    [impl Component for CarouselControls]: [update] forwards the event to
    the parent's [prev_signal] or [next_signal], [change] adopts a new
    configuration only when it differs from the stored one under the
    derived [PartialEq], which compares callbacks and node references by
    identity.  The theorems give the click path from the rendered arrows
    to the parent's callbacks, the refinement of the reconfiguration
    contract of spec 4.1, and the runtime's rendering consistency. *)

From stdpp Require Import base list strings pretty.
From S2P Require Import Prelude Styles Html ClassNames Yew Scheduler Browser.

Module CarouselControls.

Module Props.
Record t := mk {
  prev_signal : Callback;
  next_signal : Callback;
  controls_style : Style;
  controls_palette : Palette;
  controls_size : Size;
  code_ref : NodeRef;
  key : string;
  class_name : string;
  id : string;
}.
End Props.

(** [#[derive(PartialEq)]]. *)
#[export] Instance Props_eq_dec : EqDecision Props.t.
Proof. solve_decision. Defined.

(** The configuration a parent gets when it sets only the two callbacks:
    the [#[prop_or]] and [#[prop_or_default]] values, with the fresh
    [NodeRef] that [NodeRef::default()] allocates. *)
Definition default_props (prev_signal next_signal : Callback) (fresh : NodeRef) : Props.t :=
  Props.mk prev_signal next_signal Regular Standard Medium fresh "" "" "".

Record CarouselControls := mk_carousel_controls { props : Props.t }.

Inductive Msg :=
| PrevClicked (mouse_event : MouseEvent)
| NextClicked (mouse_event : MouseEvent).

(** ** Lifecycle *)

Definition create (props : Props.t) : CarouselControls := mk_carousel_controls props.

Definition update (self : CarouselControls) (msg : Msg) (w : World) : Lifecycle CarouselControls :=
  match msg with
  | PrevClicked mouse_event => Ret (self, true, emit (Props.prev_signal (props self)) mouse_event w)
  | NextClicked mouse_event => Ret (self, true, emit (Props.next_signal (props self)) mouse_event w)
  end.

Definition change (self : CarouselControls) (props' : Props.t) (w : World) : Lifecycle CarouselControls :=
  if decide (props self <> props') then Ret (mk_carousel_controls props', true, w)
  else Ret (self, false, w).

(** ** View *)

(** [format!("{side} {} {} {} {}", get_size(..), get_style(..), get_palette(..), class_name)]. *)
Definition controls_class (side : string) (p : Props.t) : string :=
  side +:+ " " +:+ get_size (Props.controls_size p) +:+ " " +:+
  get_style (Props.controls_style p) +:+ " " +:+
  get_palette (Props.controls_palette p) +:+ " " +:+ Props.class_name p.

Definition view (self : CarouselControls) : html Msg :=
  VTag "div" [("class", "carousel-control"); ("key", Props.key (props self));
              ("ref", pretty (node_ref_id (Props.code_ref (props self))))] [] [
    VTag "div" [("class", "carousel-control-left-container")]
      [("onclick", OnClick (fun e => Ret (PrevClicked e)))] [
      VComp "ControllerAssets"
        [("size", "(50, 50)"); ("class_name", controls_class "carousel-control-left" (props self));
         ("icon", "ControllerIcon::ChevronLeft")] [] [] []];
    VTag "div" [("class", "carousel-control-right-container")]
      [("onclick", OnClick (fun e => Ret (NextClicked e)))] [
      VComp "ControllerAssets"
        [("size", "(50, 50)"); ("class_name", controls_class "carousel-control-right" (props self));
         ("icon", "ControllerIcon::ChevronRight")] [] [] []]].

#[export] Instance CarouselControls_component : Component CarouselControls Props.t Msg := {
  c_create := create;
  c_mounted := default_mounted;
  c_update := update;
  c_change := change;
  c_view := fun s => Ret (view s);
}.

(** ** Theorems *)

(** C5. [change] implements the reconfiguration contract of spec 4.1
    with the derived equality: it asks to re-render exactly when the new
    configuration differs from the stored one, and then stores it. *)
Theorem change_refines_contract :
  reconfigure_contract (fun p : Props.t => p) props.
Proof.
  intros s p w. simpl. unfold change.
  case_decide as Hne.
  - exists (mk_carousel_controls p), w. rewrite bool_decide_false by done. done.
  - exists s, w. rewrite bool_decide_true by done. done.
Qed.

#[export] Instance CarouselControls_render_laws : RenderLaws CarouselControls Props.t Msg.
Proof.
  split; simpl.
  - intros c w c' w' H. by injection H as -> _.
  - intros [p] [me|me] w c' w' H; discriminate.
  - intros c p w c' w' H. unfold change in H. case_decide; [discriminate|].
    by injection H as -> _.
Qed.

(** C11. In every state the runtime reaches, the controls on the page
    are the view of the stored configuration: the "no re-render" answer
    of [change] is only given when nothing visible changed. *)
Theorem controls_render_consistent p0 w0 (i : Instance CarouselControls Msg) :
  reachable p0 w0 i -> inst_dom i = view (inst_state i).
Proof.
  intros Hr. pose proof (render_consistent _ _ _ Hr) as Hv. simpl in Hv.
  by injection Hv.
Qed.

Lemma controls_render_consistent_witness :
  exists i : Instance CarouselControls Msg,
    reachable (default_props (mk_callback 1) (mk_callback 2) (mk_node_ref 0)) empty_world i /\
    inst_dom i = view (inst_state i).
Proof.
  eexists. split; [apply reach_mount; reflexivity|].
  apply (controls_render_consistent (default_props (mk_callback 1) (mk_callback 2) (mk_node_ref 0))
           empty_world).
  apply reach_mount. reflexivity.
Defined.

(** ** Sequences of clicks *)

(** The listener of an arrow ([true] is the left one) and the parent's
    callback it reaches. *)
Definition arrow_listener (left : bool) : nat := if left then 0 else 1.

Definition arrow_signal (p : Props.t) (left : bool) : Callback :=
  if left then Props.prev_signal p else Props.next_signal p.

Lemma click_arrow (s : CarouselControls) (w : World) (me : MouseEvent) left :
  handle_event (mk_instance s w (view s)) (arrow_listener left) (EvClick me) =
    Some (Ret (mk_instance s (emit (arrow_signal (props s) left) me w) (view s))).
Proof. by destruct left. Qed.

(** C22. Clicks reach the parent in the order they happen: after any
    sequence of clicks on the rendered arrows, the parent's callbacks have
    received exactly one event per click, in click order, each on the
    callback of its side; the controls and the style table are unchanged. *)
Theorem clicks_emit_in_order (s : CarouselControls) (w : World) (clicks : list (bool * MouseEvent)) :
  handle_events (mk_instance s w (view s))
                (map (fun c => (arrow_listener c.1, EvClick c.2)) clicks) =
    Some (Ret (mk_instance s
                (mk_world (styles w)
                   (emitted w ++ map (fun c => (arrow_signal (props s) c.1, c.2)) clicks))
                (view s))).
Proof.
  revert w. induction clicks as [|[left me] clicks IH]; intros w.
  - simpl. by rewrite app_nil_r; destruct w.
  - cbn [map handle_events fst snd]. rewrite click_arrow. simpl. rewrite IH.
    simpl. by rewrite <- app_assoc.
Qed.

(** ** Class names *)

(** Reading the [class_name] of an arrow back: its side, the three
    variants and the parent's custom class. *)
Definition read_controls_class (s : string) : option (string * Size * Style * Palette * string) :=
  match read_words 4 s with
  | Some ([side; sz; st; pl], cn) =>
      size ← of_token get_size sz; style ← of_token get_style st;
      pal ← of_token get_palette pl; Some (side, size, style, pal, cn)
  | _ => None
  end.

(** C25. The class name of an arrow determines the presentation part of
    the configuration: the [format!] string of [view] reads back to the
    side, the size, style and palette variants and the custom class name,
    for any side word without spaces. *)
Theorem controls_class_roundtrip (side : string) (p : Props.t) :
  no_space side = true ->
  read_controls_class (controls_class side p) =
    Some (side, Props.controls_size p, Props.controls_style p, Props.controls_palette p,
          Props.class_name p).
Proof.
  intros Hs. unfold read_controls_class.
  pose proof (read_words_join [side; get_size (Props.controls_size p);
    get_style (Props.controls_style p); get_palette (Props.controls_palette p)]
    (Props.class_name p)) as Hr.
  cbn [List.length join_words foldr] in Hr. unfold controls_class.
  rewrite Hr by (repeat constructor; auto with tokens).
  simpl. by rewrite (of_token_inv get_size), (of_token_inv get_style), (of_token_inv get_palette).
Qed.

Lemma controls_class_roundtrip_witness :
  no_space "carousel-control-left" = true /\
  read_controls_class (controls_class "carousel-control-left"
    (default_props (mk_callback 1) (mk_callback 2) (mk_node_ref 0))) =
    Some ("carousel-control-left", Medium, Regular, Standard, "").
Proof.
  split; [reflexivity|].
  exact (controls_class_roundtrip "carousel-control-left" _ eq_refl).
Defined.

(** ** The [id] property *)

(** C29. The [id] a parent passes is dropped: the rendered controls carry
    no [id] attribute, and two configurations that differ only in [id]
    render the same page. *)
Theorem controls_ignore_id (p : Props.t) (x : string) :
  attr_values "id" (view (mk_carousel_controls p)) = [] /\
  view (mk_carousel_controls
          (Props.mk (Props.prev_signal p) (Props.next_signal p) (Props.controls_style p)
                    (Props.controls_palette p) (Props.controls_size p) (Props.code_ref p)
                    (Props.key p) (Props.class_name p) x)) =
    view (mk_carousel_controls p).
Proof. destruct p. split; reflexivity. Qed.

End CarouselControls.
