(* ===== verification/Page.v ===== *)
(** * Pages: two component instances sharing the page-wide world

    A page holds two mounted components, each with its state and its
    rendered tree, and the one [World] they share (the style side table
    and the events emitted to parents).  An operation is a new
    configuration or a browser event for one of the two ([PageOp]); a run
    interleaves them in any order ([run_page]).  This is how the Yew
    runtime hosts several components of one page (spec sections 4.3, 5).

    Two classes state what a component may do to the shared world: a
    [StylesOnly] component changes only the style table, by a function of
    the table alone; an [EmitsOnly] component only appends events to the
    emitted log.  For a page of one of each, [non_interference] shows that
    the final table is what the first component's operations alone
    produce and the final log what the second's alone produce, whatever
    the interleaving.  [Navbar] and [CarouselControls] discharge the
    classes; two navbars on one page share the table's ["navbar"] entries,
    so the one mounted last decides the position of both. *)

From stdpp Require Import base list strings gmap.
From S2P Require Import Prelude Styles Html Yew Navbar CarouselControls.

(** ** One component's operations *)

Inductive CompOp (P : Type) :=
| OpProps (p : P)
| OpEvent (k : nat) (e : event).
Arguments OpProps {P} p.
Arguments OpEvent {P} k e.

Section CompOps.
Context {C P M : Type} `{!Component C P M}.

Definition unpack (i : Instance C M) : C * html M * World :=
  (inst_state i, inst_dom i, inst_world i).

(** Run one operation on a component whose state is [c] and whose page
    is [dom], in the world [w]. *)
Definition op_run (c : C) (dom : html M) (op : CompOp P) (w : World)
    : option (outcome (C * html M * World)) :=
  match op with
  | OpProps p => Some (i <- reconfigure (mk_instance c w dom) p;; Ret (unpack i))
  | OpEvent k e =>
      r ← handle_event (mk_instance c w dom) k e;
      Some (i <- r;; Ret (unpack i))
  end.
End CompOps.

(** A component that changes only the style table, by a function of the
    table alone, and whose own result does not depend on the world. *)
Class StylesOnly (C P M : Type) `{!Component C P M} :=
  styles_only c dom op w c' dom' w' :
    op_run c dom op w = Some (Ret (c', dom', w')) ->
    exists g, w' = mk_world (g (styles w)) (emitted w) /\
      forall w2, op_run c dom op w2 = Some (Ret (c', dom', mk_world (g (styles w2)) (emitted w2))).

(** A component that only appends events to the emitted log, the same
    ones whatever the world. *)
Class EmitsOnly (C P M : Type) `{!Component C P M} :=
  emits_only c dom op w c' dom' w' :
    op_run c dom op w = Some (Ret (c', dom', w')) ->
    exists es, w' = mk_world (styles w) (emitted w ++ es) /\
      forall w2, op_run c dom op w2 = Some (Ret (c', dom', mk_world (styles w2) (emitted w2 ++ es))).

(** ** Pages *)

Section Page.
Context {C1 P1 M1 C2 P2 M2 : Type} `{!Component C1 P1 M1} `{!Component C2 P2 M2}.

Record Page := mk_page {
  left_state : C1; left_dom : html M1;
  right_state : C2; right_dom : html M2;
  page_world : World;
}.

Inductive PageOp :=
| OnLeft (op : CompOp P1)
| OnRight (op : CompOp P2).

Definition is_left (op : PageOp) : bool := match op with OnLeft _ => true | OnRight _ => false end.

(** Mount the left component, then the right one, in the same world. *)
Definition mount_page (p1 : P1) (p2 : P2) (w : World) : outcome Page :=
  i1 <- mount p1 w;;
  i2 <- mount p2 (inst_world i1);;
  Ret (mk_page (inst_state i1) (inst_dom i1) (inst_state i2) (inst_dom i2) (inst_world i2)).

Definition page_op (pg : Page) (op : PageOp) : option (outcome Page) :=
  match op with
  | OnLeft o =>
      r ← op_run (left_state pg) (left_dom pg) o (page_world pg);
      Some (obind r (fun '(c, d, w) => Ret (mk_page c d (right_state pg) (right_dom pg) w)))
  | OnRight o =>
      r ← op_run (right_state pg) (right_dom pg) o (page_world pg);
      Some (obind r (fun '(c, d, w) => Ret (mk_page (left_state pg) (left_dom pg) c d w)))
  end.

Fixpoint run_page (pg : Page) (ops : list PageOp) : option (outcome Page) :=
  match ops with
  | [] => Some (Ret pg)
  | op :: ops' =>
      r ← page_op pg op;
      match r with
      | Ret pg' => run_page pg' ops'
      | Panic s => Some (Panic s)
      end
  end.

Lemma run_page_cons pg op ops pg' :
  run_page pg (op :: ops) = Some (Ret pg') ->
  exists pg1, page_op pg op = Some (Ret pg1) /\ run_page pg1 ops = Some (Ret pg').
Proof.
  simpl. destruct (page_op pg op) as [[pg1|s]|]; simpl; intros H; try discriminate; eauto.
Qed.

Lemma page_op_left pg o pg1 :
  page_op pg (OnLeft o) = Some (Ret pg1) ->
  exists c d, op_run (left_state pg) (left_dom pg) o (page_world pg) = Some (Ret (c, d, page_world pg1)) /\
    pg1 = mk_page c d (right_state pg) (right_dom pg) (page_world pg1).
Proof.
  simpl. destruct (op_run _ _ _ _) as [[[[c d] w]|s]|]; simpl; intros H; try discriminate.
  injection H as <-. eauto.
Qed.

Lemma page_op_right pg o pg1 :
  page_op pg (OnRight o) = Some (Ret pg1) ->
  exists c d, op_run (right_state pg) (right_dom pg) o (page_world pg) = Some (Ret (c, d, page_world pg1)) /\
    pg1 = mk_page (left_state pg) (left_dom pg) c d (page_world pg1).
Proof.
  simpl. destruct (op_run _ _ _ _) as [[[[c d] w]|s]|]; simpl; intros H; try discriminate.
  injection H as <-. eauto.
Qed.
End Page.
Arguments Page C1 M1 C2 M2 : clear implicits.
Arguments PageOp P1 P2 : clear implicits.

(** ** Non-interference *)

Section NonInterference.
Context {C1 P1 M1 C2 P2 M2 : Type} `{!Component C1 P1 M1} `{!Component C2 P2 M2}
        `{!StylesOnly C1 P1 M1} `{!EmitsOnly C2 P2 M2}.

Implicit Types (pg : Page C1 M1 C2 M2).

(** What each side of a page owns: the left component and the style
    table; the right component and the emitted log. *)
Definition same_left pg pg2 : Prop :=
  left_state pg = left_state pg2 /\ left_dom pg = left_dom pg2 /\
  styles (page_world pg) = styles (page_world pg2).

Definition same_right pg pg2 : Prop :=
  right_state pg = right_state pg2 /\ right_dom pg = right_dom pg2 /\
  emitted (page_world pg) = emitted (page_world pg2).

Lemma left_step pg pg1 pg2 o :
  page_op pg (OnLeft o) = Some (Ret pg1) -> same_left pg2 pg ->
  exists pg2', page_op pg2 (OnLeft o) = Some (Ret pg2') /\ same_left pg2' pg1 /\ same_right pg2' pg2.
Proof.
  intros (c & d & Hr & ->)%page_op_left (Hs & Hd & Hw).
  destruct (styles_only _ _ _ _ _ _ _ Hr) as (g & Hw1 & Hall).
  unfold page_op. rewrite Hs, Hd, (Hall (page_world pg2)). simpl.
  eexists. split; [reflexivity|]. rewrite Hw1. unfold same_left, same_right; simpl.
  by rewrite Hw.
Qed.

Lemma right_step pg pg1 pg2 o :
  page_op pg (OnRight o) = Some (Ret pg1) -> same_right pg2 pg ->
  exists pg2', page_op pg2 (OnRight o) = Some (Ret pg2') /\ same_right pg2' pg1 /\ same_left pg2' pg2.
Proof.
  intros (c & d & Hr & ->)%page_op_right (Hs & Hd & Hw).
  destruct (emits_only _ _ _ _ _ _ _ Hr) as (es & Hw1 & Hall).
  unfold page_op. rewrite Hs, Hd, (Hall (page_world pg2)). simpl.
  eexists. split; [reflexivity|]. rewrite Hw1. unfold same_left, same_right; simpl.
  by rewrite Hw.
Qed.

#[export] Instance same_left_equiv : Equivalence same_left.
Proof.
  split; [by intros ?; split_and! | intros ?? (?&?&?); by split_and! |].
  intros ??? (?&?&?) (?&?&?); split_and!; congruence.
Qed.

#[export] Instance same_right_equiv : Equivalence same_right.
Proof.
  split; [by intros ?; split_and! | intros ?? (?&?&?); by split_and! |].
  intros ??? (?&?&?) (?&?&?); split_and!; congruence.
Qed.

#[local] Hint Extern 1 (same_left _ _) => (reflexivity || (symmetry; assumption)) : core.
#[local] Hint Extern 1 (same_right _ _) => (reflexivity || (symmetry; assumption)) : core.

(** A run of left operations only depends on what the left side owns and
    leaves what the right side owns alone; symmetrically for the right. *)
Lemma left_run_frame ops pg pg' pg2 :
  Forall (fun op => is_left op = true) ops -> run_page pg ops = Some (Ret pg') -> same_left pg2 pg ->
  exists pg2', run_page pg2 ops = Some (Ret pg2') /\ same_left pg2' pg' /\ same_right pg2' pg2.
Proof.
  revert pg pg2. induction ops as [|[o|o] ops IH]; intros pg pg2 Hl Hrun Hs.
  - simpl in Hrun. simplify_eq. by exists pg2.
  - apply Forall_cons in Hl as [_ Hl]. destruct (run_page_cons _ _ _ _ Hrun) as (pg1 & H1 & Hrest).
    destruct (left_step _ _ _ _ H1 Hs) as (pg21 & H21 & Hs1 & Hr1).
    destruct (IH _ _ Hl Hrest Hs1) as (pg2' & Hrun2 & Hs2 & Hr2).
    exists pg2'. cbn [run_page]. rewrite H21. simpl. split_and!; [done | done | by transitivity pg21].
  - apply Forall_cons in Hl as [Hf _]. discriminate.
Qed.

Lemma right_run_frame ops pg pg' pg2 :
  Forall (fun op => is_left op = false) ops -> run_page pg ops = Some (Ret pg') -> same_right pg2 pg ->
  exists pg2', run_page pg2 ops = Some (Ret pg2') /\ same_right pg2' pg' /\ same_left pg2' pg2.
Proof.
  revert pg pg2. induction ops as [|[o|o] ops IH]; intros pg pg2 Hl Hrun Hs.
  - simpl in Hrun. simplify_eq. by exists pg2.
  - apply Forall_cons in Hl as [Hf _]. discriminate.
  - apply Forall_cons in Hl as [_ Hl]. destruct (run_page_cons _ _ _ _ Hrun) as (pg1 & H1 & Hrest).
    destruct (right_step _ _ _ _ H1 Hs) as (pg21 & H21 & Hs1 & Hr1).
    destruct (IH _ _ Hl Hrest Hs1) as (pg2' & Hrun2 & Hs2 & Hr2).
    exists pg2'. cbn [run_page]. rewrite H21. simpl. split_and!; [done | done | by transitivity pg21].
Qed.

Lemma filter_is_left (ops : list (PageOp P1 P2)) : Forall (fun op => is_left op = true) (filter (fun op => is_left op = true) ops).
Proof. apply Forall_forall. intros x Hx. by apply list_elem_of_filter in Hx as [? _]. Qed.

Lemma filter_is_right (ops : list (PageOp P1 P2)) : Forall (fun op => is_left op = false) (filter (fun op => is_left op = false) ops).
Proof. apply Forall_forall. intros x Hx. by apply list_elem_of_filter in Hx as [? _]. Qed.

(** Whatever the interleaving, a page of a [StylesOnly] and an
    [EmitsOnly] component ends as the two runs of each one's operations
    alone would: the left component and the style table as after the left
    operations, the right component and the emitted log as after the
    right ones. *)
Theorem non_interference pg ops pg' :
  run_page pg ops = Some (Ret pg') ->
  exists L R,
    run_page pg (filter (fun op => is_left op = true) ops) = Some (Ret L) /\
    run_page pg (filter (fun op => is_left op = false) ops) = Some (Ret R) /\
    same_left pg' L /\ same_right pg' R.
Proof.
  revert pg. induction ops as [|op ops IH]; intros pg Hrun.
  { simpl in Hrun. simplify_eq. exists pg', pg'. split_and!; auto. }
  destruct (run_page_cons _ _ _ _ Hrun) as (pg1 & H1 & Hrest).
  destruct (IH _ Hrest) as (L & R & HL & HR & HsL & HsR).
  destruct op as [o|o].
  - destruct (left_step _ _ pg _ H1 ltac:(auto)) as (pg2 & H2 & _ & Hr).
    rewrite H1 in H2. injection H2 as <-.
    destruct (right_run_frame _ _ _ pg (filter_is_right ops) HR ltac:(auto))
      as (R' & HR' & HsR' & _).
    exists L, R'. rewrite filter_cons_True, filter_cons_False by done.
    cbn [run_page]. rewrite H1. simpl. split_and!; [done | done | done |].
    transitivity R; [exact HsR | auto].
  - destruct (right_step _ _ pg _ H1 ltac:(auto)) as (pg2 & H2 & _ & Hl).
    rewrite H1 in H2. injection H2 as <-.
    destruct (left_run_frame _ _ _ pg (filter_is_left ops) HL ltac:(auto))
      as (L' & HL' & HsL' & _).
    exists L', R. rewrite filter_cons_False, filter_cons_True by done.
    cbn [run_page]. rewrite H1. simpl. split_and!; [done | done | |done].
    transitivity L; [exact HsL | auto].
Qed.
End NonInterference.

(** ** Pages of components of one kind

    Any number of components of one kind ([Many]): mounted in order in one
    world ([mount_many]), then given new configurations and events in any
    interleaving ([run_many]). *)

Section Many.
Context {C P M : Type} `{!Component C P M}.

Record Many := mk_many {
  comps : list (C * html M);
  many_world : World;
}.

(** Mount the components in order, each in the world the previous one
    left. *)
Fixpoint mount_all (ps : list P) (w : World) : outcome (list (C * html M) * World) :=
  match ps with
  | [] => Ret ([], w)
  | p :: ps' =>
      i <- mount p w;;
      r <- mount_all ps' (inst_world i);;
      Ret ((inst_state i, inst_dom i) :: r.1, r.2)
  end.

Definition mount_many (ps : list P) (w : World) : outcome Many :=
  r <- mount_all ps w;; Ret (mk_many r.1 r.2).

(** One operation on component [k]; [None] when there is no component
    [k] or the event names no listener of its page. *)
Definition many_op (pg : Many) (k : nat) (o : CompOp P) : option (outcome Many) :=
  cd ← comps pg !! k;
  r ← op_run cd.1 cd.2 o (many_world pg);
  Some (obind r (fun '(c, d, w) => Ret (mk_many (<[k:=(c, d)]> (comps pg)) w))).

Fixpoint run_many (pg : Many) (ops : list (nat * CompOp P)) : option (outcome Many) :=
  match ops with
  | [] => Some (Ret pg)
  | (k, o) :: ops' =>
      r ← many_op pg k o;
      match r with
      | Ret pg' => run_many pg' ops'
      | Panic s => Some (Panic s)
      end
  end.

Lemma run_many_cons pg k o ops pg' :
  run_many pg ((k, o) :: ops) = Some (Ret pg') ->
  exists pg1, many_op pg k o = Some (Ret pg1) /\ run_many pg1 ops = Some (Ret pg').
Proof.
  simpl. destruct (many_op pg k o) as [[pg1|s]|]; simpl; intros H; try discriminate; eauto.
Qed.

Lemma many_op_inv pg k o pg1 :
  many_op pg k o = Some (Ret pg1) ->
  exists c d c' d', comps pg !! k = Some (c, d) /\
    op_run c d o (many_world pg) = Some (Ret (c', d', many_world pg1)) /\
    comps pg1 = <[k:=(c', d')]> (comps pg).
Proof.
  unfold many_op. destruct (comps pg !! k) as [[c d]|] eqn:Hk; simpl; [|discriminate].
  destruct (op_run c d o _) as [[[[c' d'] w]|s]|] eqn:Hr; simpl; intros H; try discriminate.
  injection H as <-. by exists c, d, c', d'.
Qed.
End Many.
Arguments Many C M : clear implicits.

(** ** The navbar and the carousel controls on one page *)

Import Navbar CarouselControls.

#[export] Instance Navbar_styles_only : StylesOnly Navbar.Navbar Navbar.Props.t Navbar.Msg.
Proof.
  intros c dom [p|k e] w c' dom' w' H.
  - simpl in H. injection H as <- <- <-.
    exists (Navbar.init (Navbar.props c)). split; [done | reflexivity].
  - cbn [op_run] in H.
    destruct (handle_event (mk_instance c w dom) k e) as [[i|s]|] eqn:Hh; simpl in H; try discriminate.
    injection H as <- <- <-.
    apply handle_event_ret in Hh as (m & Hf & Hd). simpl in Hf. destruct m.
    unfold dispatch in Hd. simpl in Hd. injection Hd as <-.
    exists id. split; [by destruct w|]. intros w2. cbn [op_run].
    unfold handle_event. simpl. rewrite Hf. simpl. by destruct w2.
Qed.

#[export] Instance CarouselControls_emits_only :
  EmitsOnly CarouselControls.CarouselControls CarouselControls.Props.t CarouselControls.Msg.
Proof.
  intros c dom [p|k e] w c' dom' w' H.
  - exists []. unfold op_run, reconfigure in *. simpl in *. unfold CarouselControls.change in *.
    case_decide; simpl in *; injection H as <- <- <-;
      (split; [by destruct w; rewrite app_nil_r | intros [t em]; by rewrite app_nil_r]).
  - cbn [op_run] in H.
    destruct (handle_event (mk_instance c w dom) k e) as [[i|s]|] eqn:Hh; simpl in H; try discriminate.
    injection H as <- <- <-.
    apply handle_event_ret in Hh as (m & Hf & Hd). simpl in Hf.
    unfold dispatch in Hd. simpl in Hd.
    destruct m as [me|me]; simpl in Hd; injection Hd as <-; eexists;
      (split; [reflexivity | intros w2; cbn [op_run]; unfold handle_event; simpl; rewrite Hf;
                             simpl; by destruct w2]).
Qed.

(** C23. Two navbars on one page write the same ["navbar"] entries of the
    style table: after mounting one and then the other, the table is what
    the second's [set_fixed] makes of the first's, and the bar's
    [position] is the second one's, whatever the first asked for. *)
Theorem two_navbars_last_mounted_wins (pa pb : Navbar.Props.t) (w : World) :
  exists pg, mount_page pa pb w = Ret pg /\
    styles (page_world pg) = set_fixed (Navbar.Props.fixed pb) (set_fixed (Navbar.Props.fixed pa) (styles w)) /\
    styles (page_world pg) !! ("navbar", "position") =
      Some (if decide (Navbar.Props.fixed pb = Fixed.None) then "inherit" else "fixed").
Proof.
  eexists. split; [reflexivity|].
  match goal with |- ?S = ?T /\ _ => assert (Hs : S = T) by reflexivity end.
  split; [exact Hs|]. rewrite Hs. apply set_fixed_position.
Qed.

Abbreviation NavCarPage :=
  (Page Navbar.Navbar Navbar.Msg CarouselControls.CarouselControls CarouselControls.Msg).

(** C24. The navbar and the carousel controls do not interfere: for any
    interleaving of configurations and clicks on a page holding both, the
    navbar and the style table end as the navbar's operations alone leave
    them, and the carousel and the events emitted to its parent as the
    carousel's operations alone leave them. *)
Theorem navbar_carousel_non_interference (pg pg' : NavCarPage) ops :
  run_page pg ops = Some (Ret pg') ->
  exists L R,
    run_page pg (filter (fun op => is_left op = true) ops) = Some (Ret L) /\
    run_page pg (filter (fun op => is_left op = false) ops) = Some (Ret R) /\
    left_state pg' = left_state L /\ styles (page_world pg') = styles (page_world L) /\
    right_state pg' = right_state R /\ emitted (page_world pg') = emitted (page_world R).
Proof.
  intros H. destruct (non_interference _ _ _ H) as (L & R & HL & HR & (? & _ & ?) & (? & _ & ?)).
  exists L, R. by split_and!.
Qed.

Definition demo_ops : list (PageOp Navbar.Props.t CarouselControls.Props.t) :=
  [OnLeft (OpEvent 0 (EvClick (mk_mouse_event 1)));
   OnRight (OpEvent 0 (EvClick (mk_mouse_event 2)));
   OnLeft (OpProps (Navbar.Props.mk Primary Light "dark" Fixed.Bottom (mk_children [])));
   OnRight (OpEvent 1 (EvClick (mk_mouse_event 3)))].

Definition demo_page : NavCarPage :=
  match mount_page (Navbar.default_props (mk_children []))
          (CarouselControls.default_props (mk_callback 1) (mk_callback 2) (mk_node_ref 0))
          empty_world with
  | Ret pg => pg
  | Panic _ => mk_page (Navbar.create (Navbar.default_props (mk_children []))) empty_html
                 (CarouselControls.create (CarouselControls.default_props (mk_callback 1) (mk_callback 2) (mk_node_ref 0)))
                 empty_html empty_world
  end.

Definition demo_final : NavCarPage :=
  match run_page demo_page demo_ops with Some (Ret pg) => pg | _ => demo_page end.

Lemma navbar_carousel_non_interference_witness :
  run_page demo_page demo_ops = Some (Ret demo_final) /\
  exists L R,
    run_page demo_page (filter (fun op => is_left op = true) demo_ops) = Some (Ret L) /\
    run_page demo_page (filter (fun op => is_left op = false) demo_ops) = Some (Ret R) /\
    left_state demo_final = left_state L /\ styles (page_world demo_final) = styles (page_world L) /\
    right_state demo_final = right_state R /\ emitted (page_world demo_final) = emitted (page_world R).
Proof.
  assert (H : run_page demo_page demo_ops = Some (Ret demo_final)) by (vm_compute; reflexivity).
  split; [exact H | exact (navbar_carousel_non_interference _ _ _ H)].
Defined.
