(* ===== verification/ManyNavbars.v ===== *)
(** * Many navbars on one page

    A page of any number of navbars ([Page.Many]), mounted in order and
    then reconfigured and clicked in any interleaving.  Each navbar's
    state depends on its own operations only ([navbar_state_own_ops]).
    All navbars write the same ["navbar"] entries of the style table, so
    the position the page ends with is given by [shown_fixed]: mounting
    shows the last navbar's mode, and a new configuration for navbar [k]
    shows the mode [k] stored before it, since [change] initialises the
    table from the configuration it replaces; clicks on the menu buttons
    change nothing in the table. *)

From stdpp Require Import base list strings gmap.
From S2P Require Import Prelude Styles Html Yew Navbar Page.

(** ** A page of navbars *)

Import Navbar.

Abbreviation NavbarPage := (Many Navbar.Navbar Navbar.Msg).

(** The fixed modes the navbars of a page store, in page order. *)
Definition stored (pg : NavbarPage) : list Fixed.t :=
  (fun cd => NavbarProps.fixed (props cd.1)) <$> comps pg.

(** The mode whose position the table shows after [ops], from the modes
    [fs] the navbars store and the mode [cur] the table shows: a new
    configuration for navbar [k] shows the mode [k] stored before it;
    events show nothing new; an operation on a navbar that is not there
    stops the run. *)
Fixpoint shown_fixed (fs : list Fixed.t) (cur : Fixed.t) (ops : list (nat * CompOp Props.t)) : Fixed.t :=
  match ops with
  | [] => cur
  | (k, OpProps p) :: ops' =>
      match fs !! k with
      | Some f => shown_fixed (<[k:=Props.fixed p]> fs) f ops'
      | None => cur
      end
  | (_, OpEvent _ _) :: ops' => shown_fixed fs cur ops'
  end.

Lemma navbar_op_props c d p w :
  op_run c d (OpProps p) w =
    Some (Ret (mk_navbar (from p) (display_menu c), view (mk_navbar (from p) (display_menu c)),
               with_styles (init (props c)) w)).
Proof. reflexivity. Qed.

Lemma navbar_op_event c d k e w c' d' w' :
  op_run c d (OpEvent k e) w = Some (Ret (c', d', w')) -> c' = toggled c /\ d' = view c' /\ w' = w.
Proof.
  cbn [op_run]. destruct (handle_event (mk_instance c w d) k e) as [[i|s]|] eqn:Hh;
    simpl; intros H; try discriminate.
  injection H as <- <- <-.
  apply handle_event_ret in Hh as (m & _ & Hd). destruct m.
  unfold dispatch in Hd. simpl in Hd. by injection Hd as <-.
Qed.

(** What one operation does to the navbar it addresses. *)
Definition step_navbar (c : Navbar) (o : CompOp Props.t) : Navbar :=
  match o with
  | OpProps p => mk_navbar (from p) (display_menu c)
  | OpEvent _ _ => toggled c
  end.

Lemma navbar_op_step c d o w c' d' w' :
  op_run c d o w = Some (Ret (c', d', w')) -> c' = step_navbar c o /\ d' = view c'.
Proof.
  destruct o as [p|k e]; intros Hr.
  - rewrite navbar_op_props in Hr. by injection Hr as <- <- _.
  - by destruct (navbar_op_event _ _ _ _ _ _ _ _ Hr) as (-> & -> & _).
Qed.

Lemma many_op_props pg k p pg1 :
  many_op pg k (OpProps p) = Some (Ret pg1) ->
  exists f, stored pg !! k = Some f /\ stored pg1 = <[k:=Props.fixed p]> (stored pg) /\
    styles (many_world pg1) = set_fixed f (styles (many_world pg)).
Proof.
  intros (c & d & c' & d' & Hk & Hr & Hc)%many_op_inv.
  rewrite navbar_op_props in Hr. injection Hr as <- <- Hw.
  exists (NavbarProps.fixed (props c)). unfold stored.
  rewrite Hc, list_lookup_fmap, Hk, list_fmap_insert, <- Hw. by split_and!.
Qed.

Lemma many_op_event pg k k' e pg1 :
  many_op pg k (OpEvent k' e) = Some (Ret pg1) ->
  stored pg1 = stored pg /\ many_world pg1 = many_world pg.
Proof.
  intros (c & d & c' & d' & Hk & Hr & Hc)%many_op_inv.
  destruct (navbar_op_event _ _ _ _ _ _ _ _ Hr) as (-> & _ & Hw). split; [|done].
  unfold stored. rewrite Hc, list_fmap_insert. simpl.
  apply list_insert_id. by rewrite list_lookup_fmap, Hk.
Qed.

(** Every run from a table showing [cur] ends showing [shown_fixed]. *)
Lemma run_many_shown pg ops pg' cur :
  run_many pg ops = Some (Ret pg') ->
  styles (many_world pg) !! ("navbar", "position") = Some (position_value cur) ->
  styles (many_world pg') !! ("navbar", "position") = Some (position_value (shown_fixed (stored pg) cur ops)).
Proof.
  revert pg cur. induction ops as [|[k o] ops IH]; intros pg cur Hrun Hcur.
  { simpl in Hrun. by simplify_eq. }
  destruct (run_many_cons _ _ _ _ _ Hrun) as (pg1 & H1 & Hrest).
  destruct o as [p|k' e]; simpl.
  - destruct (many_op_props _ _ _ _ H1) as (f & Hf & Hs & Hw). rewrite Hf, <- Hs.
    apply IH; [done|]. rewrite Hw. apply set_fixed_position.
  - destruct (many_op_event _ _ _ _ _ H1) as [Hs Hw]. rewrite <- Hs.
    apply IH; [done|]. by rewrite Hw.
Qed.

Lemma navbar_mount p w :
  mount p w = Ret (mk_instance (create p) (with_styles (set_fixed (Props.fixed p)) w) (view (create p))).
Proof. reflexivity. Qed.

(** Mounting navbars stores their modes and applies their [set_fixed]
    calls in mounting order. *)
Lemma mount_all_navbars (ps : list Props.t) w :
  mount_all ps w =
    Ret ((fun p => (create p, view (create p))) <$> ps,
         with_styles (fun t => foldl (fun t p => set_fixed (Props.fixed p) t) t ps) w).
Proof.
  revert w. induction ps as [|p ps IH]; intros w; [by destruct w|].
  cbn [mount_all]. rewrite navbar_mount. simpl. by rewrite IH.
Qed.

(** C30. On a page of navbars mounted in order and then reconfigured and
    clicked in any interleaving, the bar's [position] is the one
    [shown_fixed] gives: the last mounted navbar's mode, then, at each
    new configuration of navbar [k], the mode [k] held before it.  So the
    page can end positioned by a configuration no navbar holds any more. *)
Theorem many_navbars_position (ps : list Props.t) (p : Props.t) w ops pg pg' :
  mount_many (ps ++ [p]) w = Ret pg -> run_many pg ops = Some (Ret pg') ->
  styles (many_world pg') !! ("navbar", "position") =
    Some (position_value (shown_fixed (Props.fixed <$> ps ++ [p]) (Props.fixed p) ops)).
Proof.
  intros Hm Hrun. unfold mount_many in Hm. rewrite mount_all_navbars in Hm. injection Hm as <-.
  replace (Props.fixed <$> ps ++ [p]) with (stored (mk_many ((fun p => (create p, view (create p))) <$> ps ++ [p]) (with_styles (fun t => foldl (fun t p => set_fixed (Props.fixed p) t) t (ps ++ [p])) w)))
    by (unfold stored; simpl; rewrite <- list_fmap_compose; by apply list_fmap_ext).
  apply (run_many_shown _ _ _ _ Hrun). simpl.
  rewrite foldl_app. apply set_fixed_position.
Qed.

(** Two navbars, at the top and static; the static one is then
    configured for the top too. *)
Definition static_props : Props.t := Props.mk Standard Regular "" Fixed.None (mk_children []).

Definition two_bars : NavbarPage :=
  match mount_many ([default_props (mk_children [])] ++ [static_props]) empty_world with
  | Ret pg => pg
  | Panic _ => mk_many [] empty_world
  end.

Definition two_bars_moved : NavbarPage :=
  match run_many two_bars [(1, OpProps (default_props (mk_children [])))] with
  | Some (Ret pg) => pg
  | _ => two_bars
  end.

Lemma many_navbars_position_witness :
  mount_many ([default_props (mk_children [])] ++ [static_props]) empty_world = Ret two_bars /\
  run_many two_bars [(1, OpProps (default_props (mk_children [])))] = Some (Ret two_bars_moved) /\
  styles (many_world two_bars_moved) !! ("navbar", "position") =
    Some (position_value (shown_fixed (Props.fixed <$> [default_props (mk_children [])] ++ [static_props])
                                (Props.fixed static_props)
                                [(1, OpProps (default_props (mk_children [])))])) /\
  stored two_bars_moved = [Fixed.Top; Fixed.Top] /\
  position_value (shown_fixed (Props.fixed <$> [default_props (mk_children [])] ++ [static_props])
                        (Props.fixed static_props)
                        [(1, OpProps (default_props (mk_children [])))]) = "inherit".
Proof.
  assert (H1 : mount_many ([default_props (mk_children [])] ++ [static_props]) empty_world = Ret two_bars)
    by (vm_compute; reflexivity).
  assert (H2 : run_many two_bars [(1, OpProps (default_props (mk_children [])))] = Some (Ret two_bars_moved))
    by (vm_compute; reflexivity).
  split_and!; [exact H1 | exact H2 | exact (many_navbars_position _ _ _ _ _ _ H1 H2) |
               vm_compute; reflexivity | reflexivity].
Defined.

(** ** Each navbar's own state *)

(** The configuration navbar [k] was last given, [p] if none. *)
Fixpoint last_config (k : nat) (p : Props.t) (ops : list (nat * CompOp Props.t)) : Props.t :=
  match ops with
  | [] => p
  | (j, OpProps q) :: ops' => last_config k (if decide (j = k) then q else p) ops'
  | (_, OpEvent _ _) :: ops' => last_config k p ops'
  end.

(** The number of clicks on navbar [k]'s menu button. *)
Fixpoint clicks_on (k : nat) (ops : list (nat * CompOp Props.t)) : nat :=
  match ops with
  | [] => 0
  | (j, OpEvent _ _) :: ops' => (if decide (j = k) then 1 else 0) + clicks_on k ops'
  | (_, OpProps _) :: ops' => clicks_on k ops'
  end.

(** Navbar [k]'s state after its own operations of [ops]. *)
Definition navbar_after (k : nat) (c : Navbar) (ops : list (nat * CompOp Props.t)) : Navbar :=
  foldl step_navbar c (snd <$> filter (fun op => op.1 = k) ops).

Lemma many_op_state pg j o pg1 :
  many_op pg j o = Some (Ret pg1) ->
  exists c d, comps pg !! j = Some (c, d) /\
    comps pg1 = <[j:=(step_navbar c o, view (step_navbar c o))]> (comps pg).
Proof.
  intros (c & d & c' & d' & Hk & Hr & Hc)%many_op_inv.
  destruct (navbar_op_step _ _ _ _ _ _ _ Hr) as [-> ->]. by exists c, d.
Qed.

(** A run leaves navbar [k], showing its view, as its own operations
    make it, whatever the operations on the other navbars. *)
Lemma run_many_state pg ops pg' k c :
  run_many pg ops = Some (Ret pg') -> comps pg !! k = Some (c, view c) ->
  comps pg' !! k = Some (navbar_after k c ops, view (navbar_after k c ops)).
Proof.
  unfold navbar_after. revert pg c. induction ops as [|[j o] ops IH]; intros pg c Hrun Hk.
  { simpl in Hrun. by simplify_eq. }
  destruct (run_many_cons _ _ _ _ _ Hrun) as (pg1 & H1 & Hrest).
  destruct (many_op_state _ _ _ _ H1) as (c0 & d0 & Hj & Hc).
  rewrite filter_cons. case_decide as Hjk; simpl in Hjk |- *.
  - subst j. rewrite Hk in Hj. injection Hj as <- _.
    apply (IH pg1); [done|]. rewrite Hc. apply list_lookup_insert_eq.
    by apply lookup_lt_Some in Hk.
  - apply (IH pg1); [done|]. by rewrite Hc, list_lookup_insert_ne.
Qed.

Lemma navbar_after_closed k p b ops :
  navbar_after k (mk_navbar (from p) b) ops =
    mk_navbar (from (last_config k p ops)) (xorb b (Nat.odd (clicks_on k ops))).
Proof.
  unfold navbar_after. revert p b. induction ops as [|[j [q|k' e]] ops IH]; intros p b.
  - cbn -[from]. by rewrite xorb_false_r.
  - rewrite filter_cons. cbn -[from]. case_decide; cbn -[from]; [subst; by rewrite IH | by apply IH].
  - rewrite filter_cons. cbn -[from]. case_decide; cbn -[from]; unfold toggled; cbn -[from]; rewrite IH; [|done].
    subst. rewrite Nat.odd_succ, <- Nat.negb_odd. by destruct b, (Nat.odd _).
Qed.

(** C31. On a page of navbars, each navbar's state depends on its own
    operations only: after mounting and any interleaving of new
    configurations and clicks, navbar [k] holds the conversion of the last
    configuration it was given (its mounting one if none), its menu is
    open exactly when its button was clicked an odd number of times, and
    the page shows its view. *)
Theorem navbar_state_own_ops (ps : list Props.t) w ops pg pg' k p :
  mount_many ps w = Ret pg -> run_many pg ops = Some (Ret pg') -> ps !! k = Some p ->
  comps pg' !! k =
    Some (mk_navbar (from (last_config k p ops)) (Nat.odd (clicks_on k ops)),
          view (mk_navbar (from (last_config k p ops)) (Nat.odd (clicks_on k ops)))).
Proof.
  intros Hm Hrun Hp. unfold mount_many in Hm. rewrite mount_all_navbars in Hm.
  injection Hm as <-.
  rewrite (run_many_state _ _ _ k (create p) Hrun) by (simpl; by rewrite list_lookup_fmap, Hp).
  unfold create. by rewrite navbar_after_closed.
Qed.

(** Three clicks on the first navbar's button and a new configuration for
    the second. *)
Definition clicks_and_props : list (nat * CompOp Props.t) :=
  [(0, OpEvent 0 (EvClick (mk_mouse_event 1))); (1, OpProps (default_props (mk_children [])));
   (0, OpEvent 0 (EvClick (mk_mouse_event 2))); (0, OpEvent 0 (EvClick (mk_mouse_event 3)))].

Definition two_bars_clicked : NavbarPage :=
  match run_many two_bars clicks_and_props with
  | Some (Ret pg) => pg
  | _ => two_bars
  end.

Lemma navbar_state_own_ops_witness :
  mount_many ([default_props (mk_children [])] ++ [static_props]) empty_world = Ret two_bars /\
  run_many two_bars clicks_and_props = Some (Ret two_bars_clicked) /\
  ([default_props (mk_children [])] ++ [static_props]) !! 0 = Some (default_props (mk_children [])) /\
  comps two_bars_clicked !! 0 =
    Some (mk_navbar (from (last_config 0 (default_props (mk_children [])) clicks_and_props))
                    (Nat.odd (clicks_on 0 clicks_and_props)),
          view (mk_navbar (from (last_config 0 (default_props (mk_children [])) clicks_and_props))
                          (Nat.odd (clicks_on 0 clicks_and_props)))) /\
  Nat.odd (clicks_on 0 clicks_and_props) = true.
Proof.
  assert (H1 : mount_many ([default_props (mk_children [])] ++ [static_props]) empty_world = Ret two_bars)
    by (vm_compute; reflexivity).
  assert (H2 : run_many two_bars clicks_and_props = Some (Ret two_bars_clicked))
    by (vm_compute; reflexivity).
  assert (H3 : ([default_props (mk_children [])] ++ [static_props]) !! 0 = Some (default_props (mk_children [])))
    by reflexivity.
  split_and!; [exact H1 | exact H2 | exact H3 |
               exact (navbar_state_own_ops _ _ _ _ _ 0 _ H1 H2 H3) | reflexivity].
Defined.
