(* ===== verification/ManyCarousels.v ===== *)
(** * Carousel controls under a re-rendering parent

    A page of any number of carousel controls ([Page.Many]) whose parents
    hand them new configurations, possibly with fresh [prev_signal] and
    [next_signal] closures on every render, interleaved with clicks on
    their arrows.  [expected_emits] is what the parents should receive:
    for each click, the mouse event on the callback of the clicked side in
    the configuration that carousel held at the time of the click.  The
    theorem shows that the page sends exactly that, in click order, and
    never touches the style table. *)

From stdpp Require Import base list strings gmap.
From S2P Require Import Prelude Styles Html Yew Page CarouselControls.
Import CarouselControls.

Abbreviation CarouselPage := (Many CarouselControls.CarouselControls CarouselControls.Msg).

(** The events the parents should receive from [ops], given the
    configuration [cfgs] of each carousel; a run stops at an operation on
    a carousel that is not there or at an event no arrow accepts. *)
Fixpoint expected_emits (cfgs : list Props.t) (ops : list (nat * CompOp Props.t))
    : list (Callback * MouseEvent) :=
  match ops with
  | [] => []
  | (k, OpProps p) :: ops' => expected_emits (<[k:=p]> cfgs) ops'
  | (k, OpEvent l (EvClick me)) :: ops' =>
      match cfgs !! k with
      | Some p => (arrow_signal p (Nat.eqb l 0), me) :: expected_emits cfgs ops'
      | None => []
      end
  | (_, OpEvent _ _) :: _ => []
  end.

(** ** One operation on a carousel showing its view *)

Lemma carousel_mount p w : mount p w = Ret (mk_instance (create p) w (view (create p))).
Proof. reflexivity. Qed.

Lemma carousel_op_props c p w :
  op_run c (view c) (OpProps p) w =
    Some (Ret (mk_carousel_controls p, view (mk_carousel_controls p), w)).
Proof.
  destruct c as [q]. unfold op_run, reconfigure. simpl. unfold change. simpl.
  case_decide as Hq; simpl; [done|]. try apply dec_stable in Hq. by subst.
Qed.

Lemma carousel_op_event c k e w c' d' w' :
  op_run c (view c) (OpEvent k e) w = Some (Ret (c', d', w')) ->
  exists me, e = EvClick me /\ c' = c /\ d' = view c /\
    w' = emit (arrow_signal (props c) (Nat.eqb k 0)) me w.
Proof.
  intros H. destruct k as [|[|k]]; unfold op_run, handle_event, fire_at in H; cbn in H;
    destruct e as [d|d|me]; try discriminate; injection H as <- <- <-; by exists me.
Qed.

(** ** Runs *)

Lemma mount_all_carousels (ps : list Props.t) w :
  mount_all ps w = Ret ((fun p => (create p, view (create p))) <$> ps, w).
Proof.
  revert w. induction ps as [|p ps IH]; intros w; [done|].
  cbn [mount_all]. rewrite carousel_mount. simpl. by rewrite IH.
Qed.

Lemma run_carousels pg ops pg' :
  run_many pg ops = Some (Ret pg') -> Forall (fun cd => cd.2 = view cd.1) (comps pg) ->
  emitted (many_world pg') =
    emitted (many_world pg) ++ expected_emits ((fun cd => props cd.1) <$> comps pg) ops /\
  styles (many_world pg') = styles (many_world pg).
Proof.
  revert pg. induction ops as [|[k o] ops IH]; intros pg Hrun Hv.
  { simpl in Hrun. simplify_eq. by rewrite app_nil_r. }
  destruct (run_many_cons _ _ _ _ _ Hrun) as (pg1 & H1 & Hrest).
  destruct (many_op_inv _ _ _ _ H1) as (c & d & c' & d' & Hk & Hr & Hc).
  assert (d = view c) as -> by exact (Forall_lookup_1 _ _ _ _ Hv Hk).
  destruct o as [p|l e].
  - rewrite carousel_op_props in Hr. injection Hr as <- <- Hw.
    destruct (IH pg1 Hrest) as [He Hs]; [rewrite Hc; by apply Forall_insert|].
    rewrite He, Hs, Hc, list_fmap_insert, <- Hw. by split.
  - destruct (carousel_op_event _ _ _ _ _ _ _ Hr) as (me & -> & -> & -> & Hw).
    rewrite list_insert_id in Hc by done.
    destruct (IH pg1 Hrest) as [He Hs]; [by rewrite Hc|].
    rewrite He, Hs, Hc, Hw. cbn [expected_emits].
    rewrite list_lookup_fmap, Hk. simpl. by rewrite <- app_assoc.
Qed.

(** C32. Clicks reach the callbacks current at the time of the click: on
    a page of carousel controls mounted in order and then given new
    configurations (fresh callbacks included) and clicks in any
    interleaving, the parents receive exactly [expected_emits], one event
    per click, in click order, each on the clicked side's callback of the
    configuration that carousel held when clicked; the style table is
    untouched. *)
Theorem clicks_reach_current_callbacks (ps : list Props.t) w ops pg pg' :
  mount_many ps w = Ret pg -> run_many pg ops = Some (Ret pg') ->
  emitted (many_world pg') = emitted w ++ expected_emits ps ops /\
  styles (many_world pg') = styles w.
Proof.
  intros Hm Hrun. unfold mount_many in Hm. rewrite mount_all_carousels in Hm.
  injection Hm as <-.
  destruct (run_carousels _ _ _ Hrun) as [He Hs].
  { simpl. apply Forall_fmap, Forall_true. done. }
  rewrite He, Hs. simpl. rewrite <- list_fmap_compose, list_fmap_id. by split.
Qed.

(** A parent that renders twice, handing the controls fresh callbacks the
    second time; clicks before and after. *)
Definition render_props (prev next : positive) : Props.t :=
  default_props (mk_callback prev) (mk_callback next) (mk_node_ref 0).

Definition parent_run : list (nat * CompOp Props.t) :=
  [(0, OpEvent 0 (EvClick (mk_mouse_event 1)));
   (0, OpProps (render_props 3 4));
   (0, OpEvent 0 (EvClick (mk_mouse_event 2)));
   (0, OpEvent 1 (EvClick (mk_mouse_event 3)))].

Definition carousel_page : CarouselPage :=
  match mount_many [render_props 1 2] empty_world with
  | Ret pg => pg
  | Panic _ => mk_many [] empty_world
  end.

Definition carousel_page_after : CarouselPage :=
  match run_many carousel_page parent_run with
  | Some (Ret pg) => pg
  | _ => carousel_page
  end.

Lemma clicks_reach_current_callbacks_witness :
  mount_many [render_props 1 2] empty_world = Ret carousel_page /\
  run_many carousel_page parent_run = Some (Ret carousel_page_after) /\
  (emitted (many_world carousel_page_after) = emitted empty_world ++ expected_emits [render_props 1 2] parent_run /\
   styles (many_world carousel_page_after) = styles empty_world) /\
  expected_emits [render_props 1 2] parent_run =
    [(mk_callback 1, mk_mouse_event 1); (mk_callback 3, mk_mouse_event 2);
     (mk_callback 4, mk_mouse_event 3)].
Proof.
  assert (H1 : mount_many [render_props 1 2] empty_world = Ret carousel_page) by (vm_compute; reflexivity).
  assert (H2 : run_many carousel_page parent_run = Some (Ret carousel_page_after)) by (vm_compute; reflexivity).
  split; [exact H1|]. split; [exact H2|].
  split; [exact (clicks_reach_current_callbacks _ _ _ _ _ H1 H2) | reflexivity].
Defined.
